(** * date-night: the invite lifecycle of the Express server

    A shallow embedding of the server's request handlers (the invite
    page, event creation, the menu editor, invite issue and re-send)
    over an explicit SQLite store, session, console and network trace,
    together with the properties of the invite lifecycle.

    Conventions.
    - A JavaScript string is the sequence of its code units; the
      embedding covers the strings whose code units are below 256, one
      [ascii] per code unit.
    - Every value the platform supplies from outside the program (the
      clock, [nanoid], the answer of [fetch], a storage failure raised
      by a [run]) is an explicit input of the handler, see [Oracle].
    - [JSON.parse] and [JSON.stringify] are platform functions; the
      handlers take them through the class [JSON]. *)

From Stdlib Require Import Ascii String ZArith.
From stdpp Require Import gmap strings list pretty.

Set Warnings "-register-all".
Local Open Scope list_scope.

(* ================================================================== *)
(** * JavaScript strings *)

Module JS.

(** ECMAScript [WhiteSpace] and [LineTerminator] code units below 256:
    TAB, LF, VT, FF, CR, SP and NBSP. These are what [trim] strips. *)
Definition is_white_space (c : ascii) : bool :=
  match c with
  | "009" | "010" | "011" | "012" | "013" | " " | "160" => true
  | _ => false
  end%char.

(** [s.trimStart()] *)
Fixpoint trimStart (s : string) : string :=
  match s with
  | EmptyString => EmptyString
  | String c r => if is_white_space c then trimStart r else s
  end.

(** [s.trimEnd()] *)
Fixpoint trimEnd (s : string) : string :=
  match s with
  | EmptyString => EmptyString
  | String c r =>
      match trimEnd r with
      | EmptyString => if is_white_space c then EmptyString else String c EmptyString
      | r' => String c r'
      end
  end.

(** [s.trim()] *)
Definition trim (s : string) : string := trimStart (trimEnd s).

(** [Boolean(s)] of a string: the empty string is the only falsy one. *)
Definition truthy (s : string) : bool :=
  match s with EmptyString => false | String _ _ => true end.

(** [a || b] on strings. *)
Definition or_else (a b : string) : string := if truthy a then a else b.

(** [s.split("\n")]: never the empty list, [""] splits to [[""]]. *)
Fixpoint split_lf (s : string) : list string :=
  match s with
  | EmptyString => [EmptyString]
  | String c r =>
      if Ascii.eqb c "010"%char then EmptyString :: split_lf r
      else match split_lf r with
           | h :: t => String c h :: t
           | [] => [String c EmptyString]
           end
  end.

(** [xs.join(sep)] *)
Fixpoint join (sep : string) (xs : list string) : string :=
  match xs with
  | [] => EmptyString
  | [x] => x
  | x :: rest => x +:+ sep +:+ join sep rest
  end.

(** [s.replace(/\/$/, "")]: drop one trailing slash. *)
Fixpoint strip_trailing_slash (s : string) : string :=
  match s with
  | EmptyString => EmptyString
  | String c EmptyString => if Ascii.eqb c "/"%char then EmptyString else s
  | String c r => String c (strip_trailing_slash r)
  end.

End JS.

(* ================================================================== *)
(** * Values *)

(** A value produced by [JSON.parse]. Object members are kept in
    insertion order with distinct keys. Numbers are kept as integers;
    the handlers never look inside a number. *)
Inductive json : Type :=
| JNull
| JBool (b : bool)
| JNum (n : Z)
| JStr (s : string)
| JArr (items : list json)
| JObj (members : list (string * json)).

(** A field of [req.body] as [express.urlencoded({ extended: true })]
    delivers it: a string, an array or a nested object. *)
Inductive formval : Type :=
| FStr (s : string)
| FArr (items : list formval)
| FObj (members : list (string * formval)).

(** [m?.k]: only an object has own members; on [null] the optional
    chain yields [undefined], on any other value the property is absent. *)
Fixpoint assoc {A} (k : string) (kvs : list (string * A)) : option A :=
  match kvs with
  | [] => None
  | (k', v) :: rest => if String.eqb k' k then Some v else assoc k rest
  end.

Definition get_prop (m : json) (k : string) : option json :=
  match m with
  | JObj members => assoc k members
  | _ => None
  end.

(** [Array.isArray(v) ? v : []] on an optional property. *)
Definition array_or_empty (v : option json) : list json :=
  match v with
  | Some (JArr items) => items
  | _ => []
  end.

(** [arr.includes(s)] for a string [s]: SameValueZero, so only a string
    element with the same code units matches. *)
Definition includes (arr : list json) (s : string) : bool :=
  existsb (fun v => match v with JStr t => String.eqb t s | _ => false end) arr.

(** A form value as [JSON.stringify] sees it. *)
Fixpoint json_of_formval (v : formval) : json :=
  match v with
  | FStr s => JStr s
  | FArr items => JArr (map json_of_formval items)
  | FObj members => JObj (map (fun kv => (fst kv, json_of_formval (snd kv))) members)
  end.

(** [String(v)] *)
Fixpoint to_String (v : formval) : string :=
  match v with
  | FStr s => s
  | FArr items => JS.join "," (map to_String items)
  | FObj _ => "[object Object]"
  end.

(** [Boolean(v)]: arrays and objects are truthy. *)
Definition formval_truthy (v : formval) : bool :=
  match v with
  | FStr s => JS.truthy s
  | _ => true
  end.

(** [String(req.body.k || "")] *)
Definition field (body : gmap string formval) (k : string) : string :=
  match body !! k with
  | Some v => if formval_truthy v then to_String v else ""
  | None => ""
  end.

(** The platform's JSON codec. *)
Class JSON := {
  JSON_parse : string -> option json;      (* [None]: throws SyntaxError *)
  JSON_stringify : json -> string;
}.

(* ================================================================== *)
(** * A reference JSON codec

    An executable instance of [JSON], used to run the handlers on
    concrete stores. It covers the JSON the server writes and reads
    back: objects, arrays, strings with their escapes, integers and the
    three literals. The general statements below hold for every
    instance of [JSON]; none of them depends on this one. *)

Module RefJSON.

Definition dquote : ascii := "034"%char.
Definition backslash : ascii := "092"%char.

Definition hex_digit (n : N) : ascii :=
  ascii_of_N (if (n <? 10)%N then 48 + n else 87 + n).

Definition escaped (c : ascii) : string := String backslash (String c "").

Definition escape_char (c : ascii) : string :=
  match c with
  | "034" => escaped dquote
  | "092" => escaped backslash
  | "008" => escaped "b"
  | "009" => escaped "t"
  | "010" => escaped "n"
  | "012" => escaped "f"
  | "013" => escaped "r"
  | _ =>
      let n := N_of_ascii c in
      if (n <? 32)%N
      then escaped "u" +:+ "00" +:+
           String (hex_digit (n / 16)) (String (hex_digit (n mod 16)) "")
      else String c ""
  end%char.

Fixpoint escape (s : string) : string :=
  match s with
  | EmptyString => EmptyString
  | String c r => escape_char c +:+ escape r
  end.

Definition quote (s : string) : string :=
  String dquote (escape s +:+ String dquote "").

Fixpoint stringify (v : json) : string :=
  match v with
  | JNull => "null"
  | JBool true => "true"
  | JBool false => "false"
  | JNum n => pretty n
  | JStr s => quote s
  | JArr items => "[" +:+ JS.join "," (map stringify items) +:+ "]"
  | JObj members =>
      "{" +:+ JS.join ","
                (map (fun kv => quote (fst kv) +:+ ":" +:+ stringify (snd kv)) members)
          +:+ "}"
  end.

Fixpoint skip_ws (s : string) : string :=
  match s with
  | String c r =>
      match c with
      | " " | "009" | "010" | "013" => skip_ws r
      | _ => s
      end%char
  | EmptyString => EmptyString
  end.

Definition hex_value (c : ascii) : option N :=
  let n := N_of_ascii c in
  if ((48 <=? n) && (n <=? 57))%N then Some (n - 48)%N
  else if ((97 <=? n) && (n <=? 102))%N then Some (n - 87)%N
  else if ((65 <=? n) && (n <=? 70))%N then Some (n - 55)%N
  else None.

(** The characters of a string literal after its opening quote. *)
Fixpoint parse_chars (s : string) : option (string * string) :=
  match s with
  | EmptyString => None
  | String c r =>
      match c with
      | "034" => Some (EmptyString, r)
      | "092" =>
          match r with
          | String e r1 =>
              let lit (d : ascii) (rest : string) :=
                match parse_chars rest with
                | Some (t, r2) => Some (String d t, r2)
                | None => None
                end in
              match e with
              | "034" => lit "034" r1
              | "092" => lit "092" r1
              | "/" => lit "/" r1
              | "b" => lit "008" r1
              | "t" => lit "009" r1
              | "n" => lit "010" r1
              | "f" => lit "012" r1
              | "r" => lit "013" r1
              | "u" =>
                  match r1 with
                  | String "0" (String "0" (String h (String l r2))) =>
                      match hex_value h, hex_value l with
                      | Some a, Some b => lit (ascii_of_N (16 * a + b)) r2
                      | _, _ => None
                      end
                  | _ => None
                  end
              | _ => None
              end%char
          | EmptyString => None
          end
      | _ =>
          if (N_of_ascii c <? 32)%N then None
          else match parse_chars r with
               | Some (t, r2) => Some (String c t, r2)
               | None => None
               end
      end%char
  end.

Fixpoint parse_digits (acc : Z) (s : string) : Z * string :=
  match s with
  | String c r =>
      match Ascii.is_nat c with
      | Some d => parse_digits (10 * acc + Z.of_nat d) r
      | None => (acc, s)
      end
  | EmptyString => (acc, s)
  end.

(** [obj[k] = v] while an object literal is read: a repeated key keeps
    its place and takes the later value. *)
Fixpoint obj_set (k : string) (v : json) (kvs : list (string * json))
  : list (string * json) :=
  match kvs with
  | [] => [(k, v)]
  | (k', v') :: rest =>
      if String.eqb k' k then (k', v) :: rest else (k', v') :: obj_set k v rest
  end.

Inductive mode : Type :=
| Value
| Elements (acc : list json)
| Members (acc : list (string * json)).

Fixpoint parse_go (fuel : nat) (m : mode) (s : string) : option (json * string) :=
  match fuel with
  | O => None
  | S fuel =>
      match m with
      | Value =>
          match skip_ws s with
          | String "n" (String "u" (String "l" (String "l" r))) => Some (JNull, r)
          | String "t" (String "r" (String "u" (String "e" r))) => Some (JBool true, r)
          | String "f" (String "a" (String "l" (String "s" (String "e" r)))) =>
              Some (JBool false, r)
          | String "034" r =>
              match parse_chars r with
              | Some (t, r') => Some (JStr t, r')
              | None => None
              end
          | String "[" r =>
              match skip_ws r with
              | String "]" r' => Some (JArr [], r')
              | _ => parse_go fuel (Elements []) r
              end
          | String "{" r =>
              match skip_ws r with
              | String "}" r' => Some (JObj [], r')
              | _ => parse_go fuel (Members []) r
              end
          | String "-" (String c r) =>
              match Ascii.is_nat c with
              | Some _ => let '(n, r') := parse_digits 0 (String c r) in Some (JNum (- n), r')
              | None => None
              end
          | String c r =>
              match Ascii.is_nat c with
              | Some _ => let '(n, r') := parse_digits 0 (String c r) in Some (JNum n, r')
              | None => None
              end
          | EmptyString => None
          end
      | Elements acc =>
          match parse_go fuel Value s with
          | Some (v, r) =>
              match skip_ws r with
              | String "," r' => parse_go fuel (Elements (acc ++ [v])) r'
              | String "]" r' => Some (JArr (acc ++ [v]), r')
              | _ => None
              end
          | None => None
          end
      | Members acc =>
          match skip_ws s with
          | String "034" r =>
              match parse_chars r with
              | Some (k, r1) =>
                  match skip_ws r1 with
                  | String ":" r2 =>
                      match parse_go fuel Value r2 with
                      | Some (v, r3) =>
                          match skip_ws r3 with
                          | String "," r4 => parse_go fuel (Members (obj_set k v acc)) r4
                          | String "}" r4 => Some (JObj (obj_set k v acc), r4)
                          | _ => None
                          end
                      | None => None
                      end
                  | _ => None
                  end
              | None => None
              end
          | _ => None
          end
      end
  end.

Definition parse (s : string) : option json :=
  match parse_go (2 * String.length s + 2) Value s with
  | Some (v, r) => match skip_ws r with EmptyString => Some v | _ => None end
  | None => None
  end.

End RefJSON.

Definition ref_codec : JSON :=
  {| JSON_parse := RefJSON.parse; JSON_stringify := RefJSON.stringify |}.

(* ================================================================== *)
(** * The store (db.ts)

    One list of rows per table, in insertion order. A statement either
    runs to completion or throws and leaves the database as it was. *)

(** [date_nights] *)
Record DateNight := {
  dn_id : string;                    (* id TEXT PRIMARY KEY *)
  dn_title : string;
  dn_theme_id : string;
  dn_date_iso : option string;
  dn_menu_json : string;
  dn_blurb : option string;
  dn_created_at : string;
}.

(** [invites] *)
Record Invite := {
  inv_id : string;                   (* id TEXT PRIMARY KEY *)
  inv_date_night_id : string;
  inv_token : string;                (* token TEXT NOT NULL UNIQUE *)
  inv_recipient_email : option string;
  inv_used_at : option string;       (* used_at TEXT, NULL while pending *)
  inv_created_at : string;
}.

(** [selections] *)
Record Selection := {
  sel_id : string;                   (* id TEXT PRIMARY KEY *)
  sel_invite_id : string;            (* invite_id TEXT NOT NULL UNIQUE *)
  sel_dinner_choice : string;
  sel_activity_choice : string;
  sel_mood_choice : string;
  sel_notes : option string;
  sel_created_at : string;
}.

Record Db := {
  date_nights : list DateNight;
  invites : list Invite;
  selections : list Selection;
}.

Inductive SqliteError : Type :=
| SQLITE_CONSTRAINT            (* a PRIMARY KEY or UNIQUE column would repeat *)
| SQLITE_IOERR.                (* the engine failed: I/O error, disk full, busy *)

Inductive RunResult : Type :=
| Ran (d : Db)
| Threw (e : SqliteError).

(** [stmt.run(...)]: [fault] is the storage engine failing under the
    statement, whatever the statement is. *)
Definition run (fault : bool) (stmt : Db -> RunResult) (d : Db) : RunResult :=
  if fault then Threw SQLITE_IOERR else stmt d.

(** [SELECT * FROM invites WHERE token = ?], [.get] *)
Definition select_invite_by_token (d : Db) (token : string) : option Invite :=
  find (fun i => String.eqb (inv_token i) token) (invites d).

(** [SELECT * FROM invites WHERE id = ?], [.get] *)
Definition select_invite_by_id (d : Db) (id : string) : option Invite :=
  find (fun i => String.eqb (inv_id i) id) (invites d).

(** [SELECT * FROM date_nights WHERE id = ?], [.get] *)
Definition select_date_night (d : Db) (id : string) : option DateNight :=
  find (fun n => String.eqb (dn_id n) id) (date_nights d).

(** A selection row with this [id] or this [invite_id] is already there:
    the PRIMARY KEY or the UNIQUE column would repeat. *)
Definition selection_conflict (id invite_id : string) (d : Db) : bool :=
  existsb (fun s => String.eqb (sel_id s) id || String.eqb (sel_invite_id s) invite_id)
          (selections d).

(** [INSERT INTO selections (...) VALUES (...)] *)
Definition insert_selection (row : Selection) (d : Db) : RunResult :=
  if selection_conflict (sel_id row) (sel_invite_id row) d
  then Threw SQLITE_CONSTRAINT
  else Ran {| date_nights := date_nights d;
              invites := invites d;
              selections := selections d ++ [row] |}.

(** An invite row with this [id] or this [token] is already there. *)
Definition invite_conflict (id token : string) (d : Db) : bool :=
  existsb (fun i => String.eqb (inv_id i) id || String.eqb (inv_token i) token)
          (invites d).

(** [INSERT INTO invites (...) VALUES (...)] *)
Definition insert_invite (row : Invite) (d : Db) : RunResult :=
  if invite_conflict (inv_id row) (inv_token row) d
  then Threw SQLITE_CONSTRAINT
  else Ran {| date_nights := date_nights d;
              invites := invites d ++ [row];
              selections := selections d |}.

(** [INSERT INTO date_nights (...) VALUES (...)] *)
Definition insert_date_night (row : DateNight) (d : Db) : RunResult :=
  if existsb (fun n => String.eqb (dn_id n) (dn_id row)) (date_nights d)
  then Threw SQLITE_CONSTRAINT
  else Ran {| date_nights := date_nights d ++ [row];
              invites := invites d;
              selections := selections d |}.

Definition mark_used (now : string) (i : Invite) : Invite :=
  {| inv_id := inv_id i;
     inv_date_night_id := inv_date_night_id i;
     inv_token := inv_token i;
     inv_recipient_email := inv_recipient_email i;
     inv_used_at := Some now;
     inv_created_at := inv_created_at i |}.

(** [UPDATE invites SET used_at = ? WHERE id = ?] *)
Definition update_invite_used_at (now id : string) (d : Db) : RunResult :=
  Ran {| date_nights := date_nights d;
         invites := map (fun i => if String.eqb (inv_id i) id then mark_used now i else i)
                        (invites d);
         selections := selections d |}.

Definition with_menu (menuJson : string) (blurb : option string) (n : DateNight) : DateNight :=
  {| dn_id := dn_id n;
     dn_title := dn_title n;
     dn_theme_id := dn_theme_id n;
     dn_date_iso := dn_date_iso n;
     dn_menu_json := menuJson;
     dn_blurb := blurb;
     dn_created_at := dn_created_at n |}.

(** The store with the menu and blurb of every event [id] replaced. *)
Definition menu_saved (menuJson : string) (blurb : option string) (id : string) (d : Db)
  : Db :=
  {| date_nights :=
       map (fun n => if String.eqb (dn_id n) id then with_menu menuJson blurb n else n)
           (date_nights d);
     invites := invites d;
     selections := selections d |}.

(** [UPDATE date_nights SET menu_json = ?, blurb = ? WHERE id = ?] *)
Definition update_date_night_menu (menuJson : string) (blurb : option string)
    (id : string) (d : Db) : RunResult :=
  Ran (menu_saved menuJson blurb id d).

(* ================================================================== *)
(** * Themes (themes.ts) *)

Record Theme := {
  theme_id : string;
  theme_name : string;
  theme_blurb : string;
  options_dinner : list string;
  options_activity : list string;
  options_mood : list string;
}.

Definition cottagecore_classic : Theme :=
  {| theme_id := "cottagecore-classic";
     theme_name := "Cottagecore Classic";
     theme_blurb := "Warm bread, soft blankets, candlelight, and gentle joy.";
     options_dinner :=
       ["Soup + fresh bread"; "Pasta night"; "Charcuterie + fruit"; "Takeout plated nicely"];
     options_activity :=
       ["Bake something sweet"; "Cozy movie"; "Board games"; "Long chat + tea"];
     options_mood := ["Romantic"; "Soft & slow"; "Playful"; "Deep & cozy"] |}.

Definition THEMES : list Theme := [cottagecore_classic].

Definition getTheme (id : string) : option Theme :=
  find (fun t => String.eqb (theme_id t) id) THEMES.

(* ================================================================== *)
(** * Emails (email.ts) *)

(** The three templates are pure functions of their arguments; a
    rendered email is kept as the template applied to its arguments. *)
Inductive Email : Type :=
| renderInviteEmail (title themeName themeBlurb inviteUrl : string)
| renderPlannerEmail (title themeName inviteUrl dinner activity mood : string)
                     (notes : option string)
| renderPartnerConfirmationEmail (title themeName : string).

(** What [fetch] answers: a response with its status and body, or a
    rejected promise. *)
Inductive FetchResult : Type :=
| Responded (status : nat) (text : string)
| Rejected (reason : string).

(** [res.ok] *)
Definition ok (status : nat) : bool := (200 <=? status)%nat && (status <=? 299)%nat.

Inductive Exn : Type :=
| SqliteError_ (e : SqliteError)               (* thrown by [run] *)
| ResendFailed (status : nat) (text : string)  (* [Resend failed: status text] *)
| FetchFailed (reason : string).               (* [fetch] itself rejected *)

Inductive Effect : Type :=
| fetch_resend (from to : string) (mail : Email)  (* POST https://api.resend.com/emails *)
| log_email_stub (from to : string) (mail : Email)       (* console.log [email:stub] *)
| log_planner_missing                             (* console.log [planner-email:missing] *)
| error_planner_failed (e : Exn)                  (* console.error Planner email failed *)
| error_partner_failed (e : Exn).                 (* console.error Partner confirmation email failed *)

Definition DEFAULT_FROM : string := "Date Night Cottage <onboarding@resend.dev>".

(** [sendEmail(opts)]: what it appends to the trace, and the exception
    it throws if any. [net] is what [fetch] answers should it be called. *)
Definition sendEmail (env : gmap string string) (net : FetchResult)
    (to : string) (mail : Email) : list Effect * option Exn :=
  let apiKey := JS.trim <$> (env !! "RESEND_API_KEY") in
  let from := JS.or_else (default "" (JS.trim <$> (env !! "EMAIL_FROM"))) DEFAULT_FROM in
  if JS.truthy (default "" apiKey) then
    match net with
    | Responded status text =>
        ([fetch_resend from to mail],
         if ok status then None else Some (ResendFailed status text))
    | Rejected reason => ([fetch_resend from to mail], Some (FetchFailed reason))
    end
  else ([log_email_stub from to mail], None).

(* ================================================================== *)
(** * The server (server.ts) *)

(** The flash messages of the handlers below, one constructor per
    message text of the source. *)
Inductive Message : Type :=
| msg_link_missing            (* That invite link doesn't seem to exist. *)
| msg_event_missing           (* This invite is missing its date night. *)
| msg_theme_unknown           (* This date night has an unknown theme. *)
| msg_invite_missing          (* That invite doesn't exist. *)
| msg_invite_used             (* This invite was already used. *)
| msg_choices_invalid         (* One or more choices were invalid. Please try again. *)
| msg_section_empty           (* Please provide at least 1 option in each section. *)
| msg_itinerary_saved         (* Itinerary saved *)
| msg_resend_unavailable      (* Invite not found or missing recipient email. *)
| msg_resent                  (* Invite re-sent *)
| msg_resend_failed (e : Exn) (* Re-send failed: ... *)
| msg_invite_emailed          (* Invite created and emailed *)
| msg_invite_email_failed (e : Exn) (* Invite created, but email failed: ... *)
| msg_invite_created          (* Invite created. Copy the link and send it *)
| msg_title_missing           (* Please add a title. *)
| msg_theme_missing           (* That theme doesn't exist. *)
| msg_password_unset          (* ADMIN_PASSWORD is not set in .env *)
| msg_password_wrong          (* Nope - that password doesn't match *)
| msg_welcome                 (* Welcome in *)
| msg_deleted.                (* Deleted *)

Inductive FlashType : Type := info | error.

Record Flash := { type : FlashType; message : Message }.

(** [req.session] *)
Record Session := { isAdmin : bool; flash : option Flash }.

(** What a request can see and change. [trace] is the console and the
    network, oldest effect first. *)
Record State := { db : Db; session : Session; trace : list Effect }.

Inductive Response : Type :=
| Redirect (url : string)
| Render (view : string) (status : option nat) (shown : option Flash)
| Unhandled (e : Exn).          (* the handler threw: no response of its own *)

(** What the platform decides during one request. *)
Record Oracle := {
  now : string;                 (* [new Date().toISOString()] *)
  nanoid : nat -> string;       (* the k-th identifier drawn *)
  sql_fault : nat -> bool;      (* the engine fails under the k-th [run] *)
  fetch : nat -> FetchResult;   (* the answer at the k-th [sendEmail] site *)
}.

Definition set_db (d : Db) (st : State) : State :=
  {| db := d; session := session st; trace := trace st |}.

Definition emit (es : list Effect) (st : State) : State :=
  {| db := db st; session := session st; trace := trace st ++ es |}.

Definition setFlash (f : Flash) (st : State) : State :=
  {| db := db st;
     session := {| isAdmin := isAdmin (session st); flash := Some f |};
     trace := trace st |}.

(** [consumeFlash(req)]: the flash is read and deleted. *)
Definition consumeFlash (st : State) : option Flash * State :=
  (flash (session st),
   {| db := db st;
      session := {| isAdmin := isAdmin (session st); flash := None |};
      trace := trace st |}).

(** [renderPage]: [opts.flash ?? consumeFlash(req)]. *)
Definition renderPage (view : string) (status : option nat) (opt_flash : option Flash)
    (st : State) : Response * State :=
  match opt_flash with
  | Some f => (Render view status (Some f), st)
  | None => let '(f, st') := consumeFlash st in (Render view status f, st')
  end.

(** [baseUrl()] *)
Definition baseUrl (env : gmap string string) : string :=
  JS.strip_trailing_slash (JS.or_else (default "" (env !! "BASE_URL")) "http://localhost:3000").

(** [plannerEmail()] *)
Definition plannerEmail (env : gmap string string) : string :=
  JS.trim (JS.or_else (default "" (env !! "PLANNER_EMAIL")) "").

(** [parseLines] *)
Definition parseLines (input : string) : list string :=
  List.filter JS.truthy (map JS.trim (JS.split_lf input)).

(** [Boolean(x)] of a nullable TEXT column. *)
Definition column_truthy (x : option string) : bool :=
  match x with Some s => JS.truthy s | None => false end.

(** [String(req.body.k || "").trim() || null] *)
Definition field_or_null (body : gmap string formval) (k : string) : option string :=
  let s := JS.trim (field body k) in
  if JS.truthy s then Some s else None.

Record Menu := { dinner : list json; activity : list json; mood : list json }.

(** [JSON.stringify({ dinner, activity, mood })] takes this value. *)
Definition menu_value (dinner activity mood : list string) : json :=
  JObj [("dinner", JArr (map JStr dinner));
        ("activity", JArr (map JStr activity));
        ("mood", JArr (map JStr mood))].

(** The three membership tests of POST /invite/:token. *)
Definition valid_choice (menu : Menu) (dinner_ activity_ mood_ : string) : bool :=
  includes (dinner menu) dinner_ &&
  includes (activity menu) activity_ &&
  includes (mood menu) mood_.

(** What POST /invite/:token carries from its checks into its writes. *)
Record Submission := {
  sub_inv : Invite;
  sub_dn : DateNight;
  sub_theme : Theme;
  sub_dinner : string;
  sub_activity : string;
  sub_mood : string;
  sub_notes : option string;
}.

Inductive Checked : Type :=
| Reject (r : Response) (st : State)
| Accept (s : Submission).

Definition invite_path (token : string) : string := "/invite/" +:+ token.

Section Server.
Context `{codec : JSON}.

(** [safeParseMenuJson] *)
Definition safeParseMenuJson (menuJson : string) : Menu :=
  match JSON_parse menuJson with
  | Some m =>
      {| dinner := array_or_empty (get_prop m "dinner");
         activity := array_or_empty (get_prop m "activity");
         mood := array_or_empty (get_prop m "mood") |}
  | None => {| dinner := []; activity := []; mood := [] |}
  end.

(** GET /invite/:token. The locals of the views are left out. *)
Definition get_invite (token : string) (st : State) : Response * State :=
  match select_invite_by_token (db st) token with
  | None =>
      renderPage "thanks" (Some 404)
        (Some {| type := error; message := msg_link_missing |}) st
  | Some inv =>
      match select_date_night (db st) (inv_date_night_id inv) with
      | None =>
          renderPage "thanks" (Some 404)
            (Some {| type := error; message := msg_event_missing |}) st
      | Some dn =>
          match getTheme (dn_theme_id dn) with
          | None =>
              renderPage "thanks" (Some 500)
                (Some {| type := error; message := msg_theme_unknown |}) st
          | Some theme => renderPage "invite" None None st
          end
      end
  end.

(** POST /invite/:token, from the lookup of the invite to the validity
    test: every early return, or the accepted submission. *)
Definition post_invite_check (token : string) (body : gmap string formval)
    (st : State) : Checked :=
  match select_invite_by_token (db st) token with
  | None =>
      Reject (Redirect (invite_path token))
             (setFlash {| type := error; message := msg_invite_missing |} st)
  | Some inv =>
      if column_truthy (inv_used_at inv) then
        Reject (Redirect (invite_path token))
               (setFlash {| type := error; message := msg_invite_used |} st)
      else
        match select_date_night (db st) (inv_date_night_id inv) with
        | None => Reject (Redirect (invite_path token)) st
        | Some dn =>
            let menu := safeParseMenuJson (dn_menu_json dn) in
            match getTheme (dn_theme_id dn) with
            | None => Reject (Redirect (invite_path token)) st
            | Some theme =>
                let dinner_ := JS.trim (field body "dinnerChoice") in
                let activity_ := JS.trim (field body "activityChoice") in
                let mood_ := JS.trim (field body "moodChoice") in
                let notes := field_or_null body "notes" in
                if negb (valid_choice menu dinner_ activity_ mood_) then
                  Reject (Redirect (invite_path token))
                         (setFlash {| type := error; message := msg_choices_invalid |} st)
                else
                  Accept {| sub_inv := inv; sub_dn := dn; sub_theme := theme;
                            sub_dinner := dinner_; sub_activity := activity_;
                            sub_mood := mood_; sub_notes := notes |}
            end
        end
  end.

Definition selection_row (o : Oracle) (s : Submission) : Selection :=
  {| sel_id := nanoid o 0;
     sel_invite_id := inv_id (sub_inv s);
     sel_dinner_choice := sub_dinner s;
     sel_activity_choice := sub_activity s;
     sel_mood_choice := sub_mood s;
     sel_notes := sub_notes s;
     sel_created_at := now o |}.

(** POST /invite/:token, the two writes: the INSERT into selections,
    then the UPDATE of the invite. Returns the database as the writes
    leave it and the error thrown, if any. *)
Definition post_invite_record (o : Oracle) (s : Submission) (d : Db)
  : Db * option SqliteError :=
  match run (sql_fault o 0) (insert_selection (selection_row o s)) d with
  | Threw e => (d, Some e)
  | Ran d1 =>
      match run (sql_fault o 1) (update_invite_used_at (now o) (inv_id (sub_inv s))) d1 with
      | Threw e => (d1, Some e)
      | Ran d2 => (d2, None)
      end
  end.

(** The planner email of POST /invite/:token with its try/catch. *)
Definition notify_planner (env : gmap string string) (o : Oracle) (token : string)
    (s : Submission) : list Effect :=
  let pe := plannerEmail env in
  let inviteUrl := baseUrl env +:+ invite_path token in
  if JS.truthy pe then
    let '(es, thrown) :=
      sendEmail env (fetch o 0) pe
        (renderPlannerEmail (dn_title (sub_dn s)) (theme_name (sub_theme s)) inviteUrl
           (sub_dinner s) (sub_activity s) (sub_mood s) (sub_notes s)) in
    match thrown with
    | Some e => es ++ [error_planner_failed e]
    | None => es
    end
  else [log_planner_missing].

(** The partner confirmation of POST /invite/:token with its try/catch. *)
Definition notify_partner (env : gmap string string) (o : Oracle) (s : Submission)
  : list Effect :=
  match inv_recipient_email (sub_inv s) with
  | Some to =>
      if JS.truthy to then
        let '(es, thrown) :=
          sendEmail env (fetch o 1) to
            (renderPartnerConfirmationEmail (dn_title (sub_dn s)) (theme_name (sub_theme s))) in
        match thrown with
        | Some e => es ++ [error_partner_failed e]
        | None => es
        end
      else []
  | None => []
  end.

(** POST /invite/:token after the two writes: nothing catches what a
    [run] throws; otherwise the two emails and the thank-you page. *)
Definition post_invite_finish (env : gmap string string) (o : Oracle) (token : string)
    (s : Submission) (st : State) (recorded : Db * option SqliteError)
  : Response * State :=
  match recorded with
  | (d, Some e) => (Unhandled (SqliteError_ e), set_db d st)
  | (d, None) =>
      let st1 := emit (notify_planner env o token s) (set_db d st) in
      let st2 := emit (notify_partner env o s) st1 in
      renderPage "thanks" None None st2
  end.

(** POST /invite/:token *)
Definition post_invite (env : gmap string string) (o : Oracle) (token : string)
    (body : gmap string formval) (st : State) : Response * State :=
  match post_invite_check token body st with
  | Reject r st' => (r, st')
  | Accept s => post_invite_finish env o token s st (post_invite_record o s (db st))
  end.

(** POST /admin/date-night/:id/menu, behind [requireAdmin] *)
Definition post_admin_menu (o : Oracle) (id : string) (body : gmap string formval)
    (st : State) : Response * State :=
  if negb (isAdmin (session st)) then (Redirect "/admin/login", st)
  else
    match select_date_night (db st) id with
    | None => (Redirect "/admin/dashboard", st)
    | Some dn =>
        let dinner_ := parseLines (field body "dinner") in
        let activity_ := parseLines (field body "activity") in
        let mood_ := parseLines (field body "mood") in
        let blurb := field_or_null body "blurb" in
        if (length dinner_ =? 0)%nat || (length activity_ =? 0)%nat || (length mood_ =? 0)%nat
        then (Redirect ("/admin/date-night/" +:+ id +:+ "/menu"),
              setFlash {| type := error; message := msg_section_empty |} st)
        else
          let menuJson := JSON_stringify (menu_value dinner_ activity_ mood_) in
          match run (sql_fault o 0) (update_date_night_menu menuJson blurb id) (db st) with
          | Threw e => (Unhandled (SqliteError_ e), st)
          | Ran d =>
              (Redirect ("/admin/date-night/" +:+ id),
               setFlash {| type := info; message := msg_itinerary_saved |} (set_db d st))
          end
    end.

(** POST /admin/new, behind [requireAdmin] *)
Definition post_admin_new (o : Oracle) (body : gmap string formval) (st : State)
  : Response * State :=
  if negb (isAdmin (session st)) then (Redirect "/admin/login", st)
  else
    let theme := getTheme (JS.trim (field body "themeId")) in
    let title := JS.trim (field body "title") in
    let themeId := JS.trim (field body "themeId") in
    let dateIso := field_or_null body "date" in
    let menu :=
      match body !! "menu" with
      | Some v =>
          if formval_truthy v then json_of_formval v
          else match theme with
               | Some t => menu_value (options_dinner t) (options_activity t) (options_mood t)
               | None => JObj []
               end
      | None =>
          match theme with
          | Some t => menu_value (options_dinner t) (options_activity t) (options_mood t)
          | None => JObj []
          end
      end in
    let menuJson := JSON_stringify menu in
    if negb (JS.truthy title) then
      (Redirect "/admin/new", setFlash {| type := error; message := msg_title_missing |} st)
    else
      match getTheme themeId with
      | None =>
          (Redirect "/admin/new",
           setFlash {| type := error; message := msg_theme_missing |} st)
      | Some _ =>
          let id := nanoid o 0 in
          let row :=
            {| dn_id := id; dn_title := title; dn_theme_id := themeId;
               dn_date_iso := dateIso; dn_menu_json := menuJson;
               dn_blurb := Some (match theme with Some t => theme_blurb t | None => "" end);
               dn_created_at := now o |} in
          match run (sql_fault o 0) (insert_date_night row) (db st) with
          | Threw e => (Unhandled (SqliteError_ e), st)
          | Ran d => (Redirect ("/admin/date-night/" +:+ id), set_db d st)
          end
      end.

End Server.

(** POST /admin/date-night/:id/invite, behind [requireAdmin] *)
Definition post_admin_invite (env : gmap string string) (o : Oracle)
    (dateNightId : string) (body : gmap string formval) (st : State)
  : Response * State :=
  if negb (isAdmin (session st)) then (Redirect "/admin/login", st)
  else
    let recipientEmail := field_or_null body "recipientEmail" in
    match select_date_night (db st) dateNightId with
    | None => (Redirect "/admin/dashboard", st)
    | Some dn =>
        match getTheme (dn_theme_id dn) with
        | None => (Redirect ("/admin/date-night/" +:+ dateNightId), st)
        | Some theme =>
            let inviteId := nanoid o 0 in
            let token := nanoid o 1 in
            let row := {| inv_id := inviteId; inv_date_night_id := dateNightId;
                          inv_token := token; inv_recipient_email := recipientEmail;
                          inv_used_at := None; inv_created_at := now o |} in
            match run (sql_fault o 0) (insert_invite row) (db st) with
            | Threw e => (Unhandled (SqliteError_ e), st)
            | Ran d =>
                let inviteUrl := baseUrl env +:+ invite_path token in
                let st1 := set_db d st in
                let st2 :=
                  match recipientEmail with
                  | Some to =>
                      let '(es, thrown) :=
                        sendEmail env (fetch o 0) to
                          (renderInviteEmail (dn_title dn) (theme_name theme)
                             (theme_blurb theme) inviteUrl) in
                      match thrown with
                      | None =>
                          setFlash {| type := info; message := msg_invite_emailed |}
                                   (emit es st1)
                      | Some e =>
                          setFlash {| type := error; message := msg_invite_email_failed e |}
                                   (emit es st1)
                      end
                  | None => setFlash {| type := info; message := msg_invite_created |} st1
                  end in
                (Redirect ("/admin/date-night/" +:+ dateNightId), st2)
            end
        end
    end.

(** POST /admin/invite/:inviteId/resend, behind [requireAdmin] *)
Definition post_admin_resend (env : gmap string string) (o : Oracle)
    (inviteId : string) (st : State) : Response * State :=
  if negb (isAdmin (session st)) then (Redirect "/admin/login", st)
  else
    let unavailable :=
      (Redirect "/admin/dashboard",
       setFlash {| type := error; message := msg_resend_unavailable |} st) in
    match select_invite_by_id (db st) inviteId with
    | None => unavailable
    | Some inv =>
        match inv_recipient_email inv with
        | None => unavailable
        | Some to =>
            if negb (JS.truthy to) then unavailable
            else
              match select_date_night (db st) (inv_date_night_id inv) with
              | None => (Redirect "/admin/dashboard", st)
              | Some dn =>
                  match getTheme (dn_theme_id dn) with
                  | None => (Redirect ("/admin/date-night/" +:+ dn_id dn), st)
                  | Some theme =>
                      let inviteUrl := baseUrl env +:+ invite_path (inv_token inv) in
                      let '(es, thrown) :=
                        sendEmail env (fetch o 0) to
                          (renderInviteEmail (dn_title dn) (theme_name theme)
                             (theme_blurb theme) inviteUrl) in
                      (Redirect ("/admin/date-night/" +:+ dn_id dn),
                       match thrown with
                       | None =>
                           setFlash {| type := info; message := msg_resent |} (emit es st)
                       | Some e =>
                           setFlash {| type := error; message := msg_resend_failed e |}
                                    (emit es st)
                       end)
                  end
              end
        end
    end.

(* ================================================================== *)
(** * The invite state, read off the store *)

(** The invite's [used_at] is set (not NULL). *)
Definition is_used (d : Db) (invite_id : string) : bool :=
  match select_invite_by_id d invite_id with
  | Some inv => match inv_used_at inv with Some _ => true | None => false end
  | None => false
  end.

(** A selection row refers to the invite. *)
Definition has_selection (d : Db) (invite_id : string) : bool :=
  existsb (fun s => String.eqb (sel_invite_id s) invite_id) (selections d).

(** A string of white space only. *)
Fixpoint all_white (s : string) : bool :=
  match s with
  | EmptyString => true
  | String c r => JS.is_white_space c && all_white r
  end.

(* ================================================================== *)
(** * The rest of the server: login, deletion, the admin's invite list *)

(** [esc] of email.ts: the five characters HTML gives a meaning to are
    replaced by their entities. *)
Definition esc_char (c : ascii) : string :=
  match c with
  | "&"%char => "&amp;"
  | "<"%char => "&lt;"
  | ">"%char => "&gt;"
  | "034"%char => "&quot;"
  | "'"%char => "&#39;"
  | _ => String c EmptyString
  end.

Fixpoint esc (s : string) : string :=
  match s with
  | EmptyString => EmptyString
  | String c r => esc_char c +:+ esc r
  end.


(** [s.includes(c)] for one character. *)
Fixpoint has_char (c : ascii) (s : string) : bool :=
  match s with
  | EmptyString => false
  | String x r => Ascii.eqb x c || has_char c r
  end.

(** [(req.session as any).isAdmin = true] *)
Definition set_admin (st : State) : State :=
  {| db := db st;
     session := {| isAdmin := true; flash := flash (session st) |};
     trace := trace st |}.

(** POST /admin/login *)
Definition post_admin_login (env : gmap string string) (body : gmap string formval)
    (st : State) : Response * State :=
  let password := field body "password" in
  let expected := JS.or_else (default "" (env !! "ADMIN_PASSWORD")) "" in
  if negb (JS.truthy expected) then
    (Redirect "/admin/login",
     setFlash {| type := error; message := msg_password_unset |} st)
  else if negb (String.eqb password expected) then
    (Redirect "/admin/login",
     setFlash {| type := error; message := msg_password_wrong |} st)
  else
    (Redirect "/admin/dashboard",
     setFlash {| type := info; message := msg_welcome |} (set_admin st)).

(** GET /admin/logout: [req.session.destroy], the next request of the
    browser starts from an empty session. *)
Definition get_admin_logout (st : State) : Response * State :=
  (Redirect "/admin/login",
   {| db := db st; session := {| isAdmin := false; flash := None |}; trace := trace st |}).

(** [SELECT id FROM invites WHERE date_night_id = ?], [.all] *)
Definition select_invite_ids (d : Db) (date_night_id : string) : list string :=
  map inv_id
      (List.filter (fun i => String.eqb (inv_date_night_id i) date_night_id) (invites d)).

(** [DELETE FROM selections WHERE invite_id = ?] *)
Definition delete_selections (invite_id : string) (d : Db) : RunResult :=
  Ran {| date_nights := date_nights d;
         invites := invites d;
         selections :=
           List.filter (fun s => negb (String.eqb (sel_invite_id s) invite_id))
                       (selections d) |}.

(** [DELETE FROM invites WHERE date_night_id = ?] *)
Definition delete_invites (date_night_id : string) (d : Db) : RunResult :=
  Ran {| date_nights := date_nights d;
         invites :=
           List.filter (fun i => negb (String.eqb (inv_date_night_id i) date_night_id))
                       (invites d);
         selections := selections d |}.

(** [DELETE FROM date_nights WHERE id = ?] *)
Definition delete_date_night (id : string) (d : Db) : RunResult :=
  Ran {| date_nights := List.filter (fun n => negb (String.eqb (dn_id n) id)) (date_nights d);
         invites := invites d;
         selections := selections d |}.

(** [for (const inv of inviteIds) delSel.run(inv.id)]: the [k]-th [run]
    of the request is the first of the loop. Returns the store as the
    loop leaves it and the error that stopped it, if any. *)
Fixpoint delete_selections_each (o : Oracle) (k : nat) (ids : list string) (d : Db)
  : Db * option SqliteError :=
  match ids with
  | [] => (d, None)
  | id :: rest =>
      match run (sql_fault o k) (delete_selections id) d with
      | Threw e => (d, Some e)
      | Ran d' => delete_selections_each o (S k) rest d'
      end
  end.

(** POST /admin/date-night/:id/delete, behind [requireAdmin] *)
Definition post_admin_delete (o : Oracle) (id : string) (st : State) : Response * State :=
  if negb (isAdmin (session st)) then (Redirect "/admin/login", st)
  else
    let inviteIds := select_invite_ids (db st) id in
    match delete_selections_each o 0 inviteIds (db st) with
    | (d1, Some e) => (Unhandled (SqliteError_ e), set_db d1 st)
    | (d1, None) =>
        match run (sql_fault o (length inviteIds)) (delete_invites id) d1 with
        | Threw e => (Unhandled (SqliteError_ e), set_db d1 st)
        | Ran d2 =>
            match run (sql_fault o (S (length inviteIds))) (delete_date_night id) d2 with
            | Threw e => (Unhandled (SqliteError_ e), set_db d2 st)
            | Ran d3 =>
                (Redirect "/admin/dashboard",
                 setFlash {| type := info; message := msg_deleted |} (set_db d3 st))
            end
        end
    end.

(** The line of the admin's invite list that sums a selection up, kept
    as the template applied to the three choices. *)
Inductive Summary : Type :=
| selection_summary (dinner_choice activity_choice mood_choice : string).

(** One entry of [inviteVM] in GET /admin/date-night/:id. *)
Record InviteVM := {
  vm_id : string;
  vm_url : string;
  vm_used : bool;
  vm_menu : Menu;
  vm_recipientEmail : option string;
  vm_selectionSummary : option Summary;
}.

(** [SELECT * FROM selections WHERE invite_id = ?], [.get] *)
Definition select_selection (d : Db) (invite_id : string) : option Selection :=
  find (fun s => String.eqb (sel_invite_id s) invite_id) (selections d).

(** The function mapped over the invites in GET /admin/date-night/:id. *)
Definition inviteVM (env : gmap string string) (d : Db) (menu : Menu) (inv : Invite)
  : InviteVM :=
  let url := baseUrl env +:+ invite_path (inv_token inv) in
  let used := column_truthy (inv_used_at inv) in
  {| vm_id := inv_id inv;
     vm_url := url;
     vm_used := used;
     vm_menu := menu;
     vm_recipientEmail := inv_recipient_email inv;
     vm_selectionSummary :=
       if used then
         match select_selection d (inv_id inv) with
         | Some sel =>
             Some (selection_summary (sel_dinner_choice sel) (sel_activity_choice sel)
                     (sel_mood_choice sel))
         | None => None
         end
       else None |}.

(** The routes that write the store or the session, and the invite
    page. The pages that only render (dashboard, forms) are left out. *)
Inductive Request : Type :=
| GET_invite (token : string)
| POST_invite (token : string) (body : gmap string formval)
| POST_admin_login (body : gmap string formval)
| GET_admin_logout
| POST_admin_new (body : gmap string formval)
| POST_admin_invite (id : string) (body : gmap string formval)
| POST_admin_resend (inviteId : string)
| POST_admin_menu (id : string) (body : gmap string formval)
| POST_admin_delete (id : string).

Section Routes.
Context `{codec : JSON}.

(** The routing table. *)
Definition handle (env : gmap string string) (o : Oracle) (r : Request) (st : State)
  : Response * State :=
  match r with
  | GET_invite token => get_invite token st
  | POST_invite token body => post_invite env o token body st
  | POST_admin_login body => post_admin_login env body st
  | GET_admin_logout => get_admin_logout st
  | POST_admin_new body => post_admin_new o body st
  | POST_admin_invite id body => post_admin_invite env o id body st
  | POST_admin_resend inviteId => post_admin_resend env o inviteId st
  | POST_admin_menu id body => post_admin_menu o id body st
  | POST_admin_delete id => post_admin_delete o id st
  end.

(** Requests served one after the other on the same store; each comes
    with the session of its browser and its own platform inputs. *)
Fixpoint serve (env : gmap string string) (rs : list (Oracle * Session * Request)) (d : Db)
  : Db :=
  match rs with
  | [] => d
  | (o, sess, r) :: rest =>
      serve env rest (db (snd (handle env o r {| db := d; session := sess; trace := [] |})))
  end.

End Routes.

(** A line of the console that reports no failure: the stub of an email
    not sent for want of an API key, or the notice of a missing planner
    address. *)
Definition is_notice (e : Effect) : bool :=
  match e with
  | log_email_stub _ _ _ | log_planner_missing => true
  | _ => false
  end.

(** The schema's keys: no two rows of a table share a PRIMARY KEY or a
    UNIQUE column. *)
Definition keys_unique (d : Db) : Prop :=
  NoDup (dn_id <$> date_nights d) /\
  NoDup (inv_id <$> invites d) /\
  NoDup (inv_token <$> invites d) /\
  NoDup (sel_id <$> selections d) /\
  NoDup (sel_invite_id <$> selections d).

(** Every selection refers to an invite of the store and every invite
    to an event of the store. *)
Definition no_orphans (d : Db) : Prop :=
  Forall (fun s => sel_invite_id s ∈ (inv_id <$> invites d)) (selections d) /\
  Forall (fun i => inv_date_night_id i ∈ (dn_id <$> date_nights d)) (invites d).

(** An invite has its [used_at] set exactly when a selection refers to it. *)
Definition used_iff_selected (d : Db) : Prop :=
  Forall (fun i => is_Some (inv_used_at i) <-> inv_id i ∈ (sel_invite_id <$> selections d))
         (invites d).

(** No [run] of the request fails in the storage engine. *)
Definition no_faults (o : Oracle) : Prop := forall k, sql_fault o k = false.

(** The store after the statements of the handlers. *)
Definition with_date_night (row : DateNight) (d : Db) : Db :=
  {| date_nights := date_nights d ++ [row]; invites := invites d;
     selections := selections d |}.

Definition with_invite (row : Invite) (d : Db) : Db :=
  {| date_nights := date_nights d; invites := invites d ++ [row];
     selections := selections d |}.

Definition with_selection (row : Selection) (d : Db) : Db :=
  {| date_nights := date_nights d; invites := invites d;
     selections := selections d ++ [row] |}.

Definition with_used (now id : string) (d : Db) : Db :=
  {| date_nights := date_nights d;
     invites := map (fun i => if String.eqb (inv_id i) id then mark_used now i else i)
                    (invites d);
     selections := selections d |}.

(** The store of POST /admin/date-night/:id/delete after the selections
    of the invites [done] are deleted, then the invites of the event if
    [invites_too], then the event if [event_too]. *)
Definition after_delete (done : list string) (invites_too event_too : bool)
    (id : string) (d : Db) : Db :=
  {| date_nights :=
       if event_too
       then List.filter (fun n => negb (String.eqb (dn_id n) id)) (date_nights d)
       else date_nights d;
     invites :=
       if invites_too
       then List.filter (fun i => negb (String.eqb (inv_date_night_id i) id)) (invites d)
       else invites d;
     selections :=
       List.filter (fun s => negb (existsb (String.eqb (sel_invite_id s)) done))
                   (selections d) |}.

(** What one request can have done to the store when it ends, be it
    with a response or with an error thrown by a [run]. With [whole]
    the request ran all its statements. *)
Inductive Change (whole : bool) (d : Db) : Db -> Prop :=
| change_none : Change whole d d
| change_event (row : DateNight) :
    dn_id row ∉ (dn_id <$> date_nights d) ->
    Change whole d (with_date_night row d)
| change_invite (row : Invite) :
    inv_id row ∉ (inv_id <$> invites d) ->
    inv_token row ∉ (inv_token <$> invites d) ->
    inv_date_night_id row ∈ (dn_id <$> date_nights d) ->
    inv_used_at row = None ->
    Change whole d (with_invite row d)
| change_selection (row : Selection) (now : string) (marked : bool) :
    sel_id row ∉ (sel_id <$> selections d) ->
    sel_invite_id row ∉ (sel_invite_id <$> selections d) ->
    sel_invite_id row ∈ (inv_id <$> invites d) ->
    (whole = true -> marked = true) ->
    Change whole d (if marked then with_used now (sel_invite_id row) (with_selection row d)
                    else with_selection row d)
| change_menu (menuJson : string) (blurb : option string) (id : string) :
    Change whole d (menu_saved menuJson blurb id d)
| change_delete (done : list string) (invites_too event_too : bool) (id : string) :
    (forall x, x ∈ done -> x ∈ select_invite_ids d id) ->
    (invites_too = true -> done = select_invite_ids d id) ->
    (event_too = true -> invites_too = true) ->
    (whole = true -> event_too = true) ->
    Change whole d (after_delete done invites_too event_too id d).

(* ================================================================== *)
(** * A small deployment to run the handlers on *)

Module Example.

Definition env : gmap string string :=
  list_to_map [("BASE_URL", "https://cottage.example/");
               ("PLANNER_EMAIL", "planner@example.com");
               ("RESEND_API_KEY", "re_test")].

Definition friday_menu (dinner_ : list string) : string :=
  RefJSON.stringify (menu_value dinner_ ["Board games"; "Cozy movie"] ["Romantic"]).

Definition friday (menuJson : string) : DateNight :=
  {| dn_id := "dn1"; dn_title := "Friday"; dn_theme_id := "cottagecore-classic";
     dn_date_iso := None; dn_menu_json := menuJson;
     dn_blurb := Some "Warm bread"; dn_created_at := "2024-02-01T10:00:00.000Z" |}.

Definition inv1 : Invite :=
  {| inv_id := "inv1"; inv_date_night_id := "dn1"; inv_token := "T";
     inv_recipient_email := Some "pat@example.com"; inv_used_at := None;
     inv_created_at := "2024-02-01T10:05:00.000Z" |}.

(** One event with dinner options Soup and Pasta, one pending invite. *)
Definition db0 : Db :=
  {| date_nights := [friday (friday_menu ["Soup"; "Pasta"])];
     invites := [inv1];
     selections := [] |}.

Definition guest : Session := {| isAdmin := false; flash := None |}.
Definition admin : Session := {| isAdmin := true; flash := None |}.

Definition at_db (d : Db) (s : Session) : State := {| db := d; session := s; trace := [] |}.

Definition oracle (id : string) (faults : nat -> bool) (net : nat -> FetchResult) : Oracle :=
  {| now := "2024-02-02T19:00:00.000Z"; nanoid := fun k => id +:+ pretty k;
     sql_fault := faults; fetch := net |}.

Definition no_fault : nat -> bool := fun _ => false.
Definition fault_at (k : nat) : nat -> bool := fun n => (n =? k)%nat.
Definition delivered : nat -> FetchResult := fun _ => Responded 200 "{}".
Definition unreachable : nat -> FetchResult := fun _ => Rejected "ECONNREFUSED".

Definition choices (dinner_ activity_ mood_ : string) : gmap string formval :=
  list_to_map [("dinnerChoice", FStr dinner_); ("activityChoice", FStr activity_);
               ("moodChoice", FStr mood_)].

Definition menu_form (dinner_ activity_ mood_ : string) : gmap string formval :=
  list_to_map [("dinner", FStr dinner_); ("activity", FStr activity_);
               ("mood", FStr mood_); ("blurb", FStr " Candlelight ")].

(** The submission of Pasta as the checks of POST /invite/T accept it. *)
Definition pasta : Submission :=
  {| sub_inv := inv1; sub_dn := friday (friday_menu ["Soup"; "Pasta"]);
     sub_theme := cottagecore_classic;
     sub_dinner := "Pasta"; sub_activity := "Board games"; sub_mood := "Romantic";
     sub_notes := None |}.

Definition pasta_row (id : string) : Selection :=
  {| sel_id := id; sel_invite_id := "inv1"; sel_dinner_choice := "Pasta";
     sel_activity_choice := "Board games"; sel_mood_choice := "Romantic";
     sel_notes := None; sel_created_at := "2024-02-02T19:00:00.000Z" |}.

(** [db0] with a selection for the invite and the invite still pending. *)
Definition db_half : Db :=
  {| date_nights := date_nights db0; invites := invites db0;
     selections := [pasta_row "sel0"] |}.

(** [db0] without the event of the invite. *)
Definition db_dangling : Db :=
  {| date_nights := []; invites := invites db0; selections := [] |}.

(** [db0] with the event on a theme the catalog does not have. *)
Definition db_themeless : Db :=
  {| date_nights :=
       [{| dn_id := "dn1"; dn_title := "Friday"; dn_theme_id := "retro";
           dn_date_iso := None; dn_menu_json := friday_menu ["Soup"; "Pasta"];
           dn_blurb := None; dn_created_at := "2024-02-01T10:00:00.000Z" |}];
     invites := invites db0; selections := [] |}.

(** The event of [db0] before any invite is issued. *)
Definition db_fresh : Db :=
  {| date_nights := date_nights db0; invites := []; selections := [] |}.

Definition invite_form (recipientEmail : string) : gmap string formval :=
  list_to_map [("recipientEmail", FStr recipientEmail)].

Definition db_empty : Db := {| date_nights := []; invites := []; selections := [] |}.

(** The form of POST /admin/new with a menu of its own. *)
Definition create_form (title : string) (dinner_ activity_ mood_ : list string)
  : gmap string formval :=
  list_to_map
    [("title", FStr title); ("themeId", FStr "cottagecore-classic");
     ("menu", FObj [("dinner", FArr (map FStr dinner_));
                    ("activity", FArr (map FStr activity_));
                    ("mood", FArr (map FStr mood_))])].

(** The event that [oracle "dn"] creates from [create_form "Friday"]. *)
Definition created (dinner_ : list string) : DateNight :=
  {| dn_id := "dn0"; dn_title := "Friday"; dn_theme_id := "cottagecore-classic";
     dn_date_iso := None;
     dn_menu_json := RefJSON.stringify (menu_value dinner_ ["Board games"] ["Romantic"]);
     dn_blurb := Some "Warm bread, soft blankets, candlelight, and gentle joy.";
     dn_created_at := "2024-02-02T19:00:00.000Z" |}.

(** The invite that [oracle "k"] issues for an event: id k0, token k1. *)
Definition issued (dateNightId : string) : Invite :=
  {| inv_id := "k0"; inv_date_night_id := dateNightId; inv_token := "k1";
     inv_recipient_email := Some "pat@example.com"; inv_used_at := None;
     inv_created_at := "2024-02-02T19:00:00.000Z" |}.

End Example.

(* ================================================================== *)
(** * Strings: trimming and splitting *)

Lemma trimEnd_head c r :
  JS.is_white_space c = false ->
  exists t, JS.trimEnd (String c r) = String c t.
Proof.
  intros Hc. simpl. destruct (JS.trimEnd r); rewrite ?Hc; eauto.
Qed.

Lemma trimStart_trimEnd s : JS.trimEnd (JS.trimStart s) = JS.trimStart (JS.trimEnd s).
Proof.
  induction s as [|c r IH]; [reflexivity|].
  destruct (JS.is_white_space c) eqn:Hc.
  - simpl JS.trimStart at 1. rewrite Hc, IH. simpl JS.trimEnd.
    destruct (JS.trimEnd r) eqn:Hr; rewrite ?Hc; simpl; rewrite ?Hc; reflexivity.
  - simpl JS.trimStart at 1. rewrite Hc.
    destruct (trimEnd_head c r Hc) as [t ->]. simpl. now rewrite Hc.
Qed.

Lemma trimStart_idem s : JS.trimStart (JS.trimStart s) = JS.trimStart s.
Proof.
  induction s as [|c r IH]; [reflexivity|]. simpl.
  destruct (JS.is_white_space c) eqn:Hc; [exact IH|]. simpl. now rewrite Hc.
Qed.

Lemma trimEnd_idem s : JS.trimEnd (JS.trimEnd s) = JS.trimEnd s.
Proof.
  induction s as [|c r IH]; [reflexivity|]. simpl.
  destruct (JS.trimEnd r) as [|c' r'] eqn:Hr.
  - destruct (JS.is_white_space c) eqn:Hc; [reflexivity|]. simpl. now rewrite Hc.
  - change (JS.trimEnd (String c (String c' r')))
      with (match JS.trimEnd (String c' r') with
            | EmptyString =>
                if JS.is_white_space c then EmptyString else String c EmptyString
            | t => String c t
            end).
    now rewrite IH.
Qed.

Lemma trim_idem s : JS.trim (JS.trim s) = JS.trim s.
Proof.
  unfold JS.trim.
  rewrite <- (trimStart_trimEnd (JS.trimStart (JS.trimEnd s))).
  rewrite trimStart_idem, trimStart_trimEnd, trimEnd_idem. reflexivity.
Qed.

Lemma app_cons c (r s : string) : String c r +:+ s = String c (r +:+ s).
Proof. reflexivity. Qed.

Lemma app_empty (s : string) : EmptyString +:+ s = s.
Proof. reflexivity. Qed.

Lemma trimStart_white l s : all_white l = true -> JS.trimStart (l +:+ s) = JS.trimStart s.
Proof.
  induction l as [|c r IH]; [reflexivity|]. rewrite app_cons. simpl.
  intros [Hc Hr]%andb_true_iff. rewrite Hc. auto.
Qed.

Lemma trimEnd_white r : all_white r = true -> JS.trimEnd r = EmptyString.
Proof.
  induction r as [|c r IH]; simpl; [reflexivity|].
  intros [Hc Hr]%andb_true_iff. now rewrite (IH Hr), Hc.
Qed.

Lemma trimEnd_app_white s r : all_white r = true -> JS.trimEnd (s +:+ r) = JS.trimEnd s.
Proof.
  intros Hr. induction s as [|c t IH].
  - rewrite app_empty. now apply trimEnd_white.
  - rewrite app_cons. simpl. now rewrite IH.
Qed.

Lemma string_app_assoc (a b c : string) : (a +:+ b) +:+ c = a +:+ (b +:+ c).
Proof. induction a as [|x a IH]; [reflexivity|]. now rewrite !app_cons, IH. Qed.

(** White space around an already trimmed string is all [trim] removes. *)
Lemma trim_padded l x r :
  all_white l = true -> all_white r = true -> JS.trim x = x ->
  JS.trim (l +:+ x +:+ r) = x.
Proof.
  intros Hl Hr Hx. unfold JS.trim.
  rewrite <- string_app_assoc, (trimEnd_app_white _ r Hr).
  rewrite <- trimStart_trimEnd, (trimStart_white l x Hl), trimStart_trimEnd.
  exact Hx.
Qed.

Lemma trim_white s : all_white s = true -> JS.trim s = EmptyString.
Proof. intros H. unfold JS.trim. now rewrite (trimEnd_white s H). Qed.

Lemma truthy_nonempty s : JS.truthy s = true <-> s <> EmptyString.
Proof. destruct s; simpl; split; congruence. Qed.

(** Every line [parseLines] keeps is non-empty and trimmed. *)
Lemma parseLines_spec input x :
  In x (parseLines input) -> x <> EmptyString /\ JS.trim x = x.
Proof.
  unfold parseLines. intros [Hin Ht]%List.filter_In.
  apply in_map_iff in Hin as [y [<- _]].
  split; [now apply truthy_nonempty | apply trim_idem].
Qed.

(* ================================================================== *)
(** * Arrays and rows *)

Lemma includes_In arr s : includes arr s = true <-> In (JStr s) arr.
Proof.
  unfold includes. rewrite existsb_exists. split.
  - intros [v [Hin Hv]]. destruct v; try discriminate.
    apply String.eqb_eq in Hv. now subst.
  - intros Hin. exists (JStr s). split; [exact Hin | apply String.eqb_refl].
Qed.

Lemma includes_map_JStr xs s : includes (map JStr xs) s = true <-> In s xs.
Proof.
  rewrite includes_In, in_map_iff. split.
  - intros [y [[= ->] Hy]]. exact Hy.
  - intros H. eauto.
Qed.

Lemma find_map_keyed {A} (p : A -> bool) (f : A -> A) (l : list A) :
  (forall x, p (f x) = p x) ->
  find p (map f l) = option_map f (find p l).
Proof.
  intros Hp. induction l as [|x l IH]; simpl; [reflexivity|].
  rewrite Hp. destruct (p x); [reflexivity | exact IH].
Qed.

(* ================================================================== *)
(** * Menus: decoding and validation *)

Section Menus.
Context `{codec : JSON}.

(** C9. Decoding a stored menu is total and falls back to empty groups:
    for every text, [safeParseMenuJson] returns the three groups; a
    group is the array the text holds under its key, and the empty
    array whenever the text is not JSON, is JSON but not an object, or
    holds anything but an array under that key. *)
Theorem safeParseMenuJson_fallback (menuJson : string) :
  let menu := safeParseMenuJson menuJson in
  let decodes (key : string) (group : list json) :=
    match JSON_parse menuJson with
    | Some (JObj members) =>
        match assoc key members with
        | Some (JArr items) => group = items
        | _ => group = []
        end
    | _ => group = []
    end in
  decodes "dinner" (dinner menu) /\
  decodes "activity" (activity menu) /\
  decodes "mood" (mood menu).
Proof.
  unfold safeParseMenuJson.
  destruct (JSON_parse menuJson) as [m|]; [|now repeat split].
  destruct m; simpl; try now repeat split.
  repeat split.
  - destruct (assoc "dinner" members) as [[]|]; reflexivity.
  - destruct (assoc "activity" members) as [[]|]; reflexivity.
  - destruct (assoc "mood" members) as [[]|]; reflexivity.
Qed.

(** The fallback on texts the store could hold: not JSON, JSON that is
    not an object, an object whose dinner is a string. *)
Lemma safeParseMenuJson_examples :
  let empty := {| dinner := []; activity := []; mood := [] |} in
  safeParseMenuJson (codec := ref_codec) "not json" = empty /\
  safeParseMenuJson (codec := ref_codec) "null" = empty /\
  safeParseMenuJson (codec := ref_codec) "[1, 2]" = empty /\
  safeParseMenuJson (codec := ref_codec)
    (RefJSON.stringify (JObj [("dinner", JStr "Soup"); ("mood", JArr [JStr "Calm"; JNum 3])]))
  = {| dinner := []; activity := []; mood := [JStr "Calm"; JNum 3] |}.
Proof. vm_compute. repeat split. Qed.

Lemma valid_choice_In (menu : Menu) (d a m : string) :
  valid_choice menu d a m = true <->
  In (JStr d) (dinner menu) /\ In (JStr a) (activity menu) /\ In (JStr m) (mood menu).
Proof.
  unfold valid_choice. rewrite !andb_true_iff, !includes_In. tauto.
Qed.

(** What [post_invite_check] answers once the invite, its event and the
    theme resolve: the validity test decides. *)
Lemma post_invite_check_resolved token body st inv dn theme :
  select_invite_by_token (db st) token = Some inv ->
  column_truthy (inv_used_at inv) = false ->
  select_date_night (db st) (inv_date_night_id inv) = Some dn ->
  getTheme (dn_theme_id dn) = Some theme ->
  post_invite_check token body st =
    if valid_choice (safeParseMenuJson (dn_menu_json dn))
         (JS.trim (field body "dinnerChoice")) (JS.trim (field body "activityChoice"))
         (JS.trim (field body "moodChoice"))
    then Accept {| sub_inv := inv; sub_dn := dn; sub_theme := theme;
                   sub_dinner := JS.trim (field body "dinnerChoice");
                   sub_activity := JS.trim (field body "activityChoice");
                   sub_mood := JS.trim (field body "moodChoice");
                   sub_notes := field_or_null body "notes" |}
    else Reject (Redirect (invite_path token))
                (setFlash {| type := error; message := msg_choices_invalid |} st).
Proof.
  intros Hinv Hused Hdn Hth. unfold post_invite_check.
  rewrite Hinv, Hused, Hdn, Hth.
  now destruct (valid_choice _ _ _ _).
Qed.

(** C3, as the code has it. A submitted triple passes validation exactly
    when each of its three strings is, code unit for code unit, a string
    element of the corresponding group of the event's current menu; the
    empty string gets no special treatment. A triple that passes is
    accepted as submitted; one that does not is answered with the one
    message "One or more choices were invalid", whichever field failed. *)
Theorem validation_is_membership
    (token : string) (body : gmap string formval) (st : State)
    (inv : Invite) (dn : DateNight) (theme : Theme) :
  select_invite_by_token (db st) token = Some inv ->
  column_truthy (inv_used_at inv) = false ->
  select_date_night (db st) (inv_date_night_id inv) = Some dn ->
  getTheme (dn_theme_id dn) = Some theme ->
  let menu := safeParseMenuJson (dn_menu_json dn) in
  let d := JS.trim (field body "dinnerChoice") in
  let a := JS.trim (field body "activityChoice") in
  let m := JS.trim (field body "moodChoice") in
  let member :=
    In (JStr d) (dinner menu) /\ In (JStr a) (activity menu) /\ In (JStr m) (mood menu) in
  (valid_choice menu d a m = true <-> member) /\
  (member ->
   exists s, post_invite_check token body st = Accept s /\
             sub_dinner s = d /\ sub_activity s = a /\ sub_mood s = m) /\
  (~ member ->
   post_invite_check token body st =
     Reject (Redirect (invite_path token))
            (setFlash {| type := error; message := msg_choices_invalid |} st)) /\
  (d = EmptyString -> valid_choice menu d a m = true -> In (JStr EmptyString) (dinner menu)).
Proof.
  intros Hinv Hused Hdn Hth menu d a m member.
  pose proof (post_invite_check_resolved token body st inv dn theme Hinv Hused Hdn Hth) as Hc.
  pose proof (valid_choice_In menu d a m) as Hv.
  fold menu d a m in Hc.
  split; [exact Hv|]. split; [|split].
  - intros Hm. apply Hv in Hm. rewrite Hm in Hc. eexists. split; [exact Hc|]. now simpl.
  - intros Hm. destruct (valid_choice menu d a m) eqn:E; [|exact Hc].
    exfalso. apply Hm, Hv. reflexivity.
  - intros Hd Hok. apply Hv in Hok as [H _]. now rewrite Hd in H.
Qed.

End Menus.

(** The invite of [Example.db0]: Pasta, Board games and Romantic are in the
    menu and the submission is accepted as submitted. *)
Lemma validation_is_membership_witness :
  exists s,
    post_invite_check (codec := ref_codec) "T"
      (Example.choices "Pasta" "Board games" "Romantic")
      (Example.at_db Example.db0 Example.guest) = Accept s /\
    sub_dinner s = "Pasta" /\ sub_activity s = "Board games" /\ sub_mood s = "Romantic".
Proof.
  destruct (validation_is_membership (codec := ref_codec) "T"
              (Example.choices "Pasta" "Board games" "Romantic")
              (Example.at_db Example.db0 Example.guest)
              Example.inv1 (Example.friday (Example.friday_menu ["Soup"; "Pasta"]))
              cottagecore_classic
              eq_refl eq_refl eq_refl eq_refl) as (_ & Hacc & _).
  apply Hacc. vm_compute. tauto.
Defined.

(** C3 as stated does not hold: a submission whose only bad field is the
    dinner and one whose only bad field is the mood get the very same
    answer, so the answer does not say which field failed. *)
Lemma validation_does_not_name_fields :
  let st := Example.at_db Example.db0 Example.guest in
  let menu := safeParseMenuJson (codec := ref_codec) (Example.friday_menu ["Soup"; "Pasta"]) in
  let invalid :=
    Reject (Redirect "/invite/T")
           (setFlash {| type := error; message := msg_choices_invalid |} st) in
  (includes (dinner menu) "Lasagne" = false /\
   includes (activity menu) "Board games" = true /\
   includes (mood menu) "Romantic" = true) /\
  (includes (dinner menu) "Soup" = true /\
   includes (activity menu) "Board games" = true /\
   includes (mood menu) "Grumpy" = false) /\
  post_invite_check (codec := ref_codec) "T"
    (Example.choices "Lasagne" "Board games" "Romantic") st = invalid /\
  post_invite_check (codec := ref_codec) "T"
    (Example.choices "Soup" "Board games" "Grumpy") st = invalid.
Proof. vm_compute. repeat split. Qed.

(* ================================================================== *)
(** * Recording a selection *)

Section Recording.
Context `{codec : JSON}.

(** The four ways the two writes can end. *)
Lemma post_invite_record_cases (o : Oracle) (s : Submission) (d : Db) :
  let id := inv_id (sub_inv s) in
  let inserted :=
    {| date_nights := date_nights d; invites := invites d;
       selections := selections d ++ [selection_row o s] |} in
  let marked :=
    {| date_nights := date_nights d;
       invites := map (fun i => if String.eqb (inv_id i) id then mark_used (now o) i else i)
                      (invites d);
       selections := selections d ++ [selection_row o s] |} in
  post_invite_record o s d =
    if sql_fault o 0 then (d, Some SQLITE_IOERR)
    else if selection_conflict (nanoid o 0) id d then (d, Some SQLITE_CONSTRAINT)
    else if sql_fault o 1 then (inserted, Some SQLITE_IOERR)
    else (marked, None).
Proof.
  unfold post_invite_record, run, insert_selection. simpl.
  destruct (sql_fault o 0); [reflexivity|].
  destruct (selection_conflict _ _ d); [reflexivity|].
  destruct (sql_fault o 1); reflexivity.
Qed.


Lemma has_selection_inserted o s d :
  has_selection
    {| date_nights := date_nights d; invites := invites d;
       selections := selections d ++ [selection_row o s] |}
    (inv_id (sub_inv s)) = true.
Proof.
  unfold has_selection. simpl. rewrite existsb_app. simpl.
  rewrite String.eqb_refl. apply orb_true_iff. right. reflexivity.
Qed.

Lemma is_used_marked now_ id (d : Db) (sels : list Selection) inv0 :
  select_invite_by_id d id = Some inv0 ->
  is_used
    {| date_nights := date_nights d;
       invites := map (fun i => if String.eqb (inv_id i) id then mark_used now_ i else i)
                      (invites d);
       selections := sels |} id = true.
Proof.
  unfold is_used, select_invite_by_id. simpl. intros Hsel.
  rewrite find_map_keyed.
  - rewrite Hsel. simpl. apply find_some in Hsel as [_ Hid]. now rewrite Hid.
  - intros x. now destruct (String.eqb (inv_id x) id) eqn:E.
Qed.

(** C1, as the code has it. The INSERT of the selection and the UPDATE
    of the invite are two statements run one after the other, with no
    transaction around them. For an invite that is in the store and
    whose used mark agrees with the presence of its selection: when both
    statements run, the selection is there and the invite is used; when
    the INSERT throws, the store is unchanged; so as long as nothing
    fails under the UPDATE, the used mark is present exactly when a
    selection exists. When the INSERT runs and the UPDATE throws, the
    selection stays and the invite row is as it was. *)
Theorem record_is_two_statements (o : Oracle) (s : Submission) (d : Db) (inv0 : Invite) :
  let id := inv_id (sub_inv s) in
  select_invite_by_id d id = Some inv0 ->
  is_used d id = has_selection d id ->
  let d' := fst (post_invite_record o s d) in
  let thrown := snd (post_invite_record o s d) in
  (thrown = None -> is_used d' id = true /\ has_selection d' id = true) /\
  (sql_fault o 0 = true \/ selection_conflict (nanoid o 0) id d = true ->
   d' = d /\ thrown <> None) /\
  (sql_fault o 1 = false -> is_used d' id = has_selection d' id) /\
  (sql_fault o 0 = false -> selection_conflict (nanoid o 0) id d = false ->
   sql_fault o 1 = true ->
   thrown = Some SQLITE_IOERR /\ has_selection d' id = true /\
   invites d' = invites d /\ is_used d' id = is_used d id).
Proof.
  intros id Hrow Hcons d' thrown. subst d' thrown.
  rewrite (post_invite_record_cases o s d). fold id.
  destruct (sql_fault o 0) eqn:F0; simpl.
  { split; [discriminate|]. split; [intros _; split; [reflexivity|discriminate]|].
    split; [intros _; exact Hcons | discriminate]. }
  destruct (selection_conflict (nanoid o 0) id d) eqn:Cf; simpl.
  { split; [discriminate|]. split; [intros _; split; [reflexivity|discriminate]|].
    split; [intros _; exact Hcons | discriminate]. }
  pose proof (has_selection_inserted o s d) as Hs. fold id in Hs.
  destruct (sql_fault o 1) eqn:F1; simpl.
  - split; [discriminate|]. split; [intros [?|?]; discriminate|].
    split; [discriminate|]. intros _ _ _.
    split; [reflexivity|]. split; [exact Hs|]. split; reflexivity.
  - pose proof (is_used_marked (now o) id d (selections d ++ [selection_row o s]) inv0 Hrow)
      as Hu.
    split; [intros _; split; [exact Hu | exact Hs]|].
    split; [intros [?|?]; discriminate|].
    split; [intros _; rewrite Hu; symmetry; exact Hs | discriminate].
Qed.


End Recording.

(** On [Example.db0] with nothing failing, both statements run: the
    selection is in and the invite is used. *)
Lemma record_is_two_statements_witness :
  let d' := fst (post_invite_record (Example.oracle "sel" Example.no_fault Example.delivered)
                   Example.pasta Example.db0) in
  is_used d' "inv1" = true /\ has_selection d' "inv1" = true.
Proof.
  destruct (record_is_two_statements
              (Example.oracle "sel" Example.no_fault Example.delivered)
              Example.pasta Example.db0 Example.inv1 eq_refl eq_refl) as (Hboth & _).
  apply Hboth. reflexivity.
Defined.

(** C1 as stated does not hold: the engine fails under the UPDATE, after
    the INSERT has run. The request ends with the error; the selection
    row is in the store and the invite is still pending. *)
Lemma record_is_not_atomic :
  let st := Example.at_db Example.db0 Example.guest in
  let o := Example.oracle "sel" (Example.fault_at 1) Example.delivered in
  let run := post_invite (codec := ref_codec) Example.env o "T"
               (Example.choices "Pasta" "Board games" "Romantic") st in
  (is_used (db st) "inv1" = false /\ has_selection (db st) "inv1" = false) /\
  fst run = Unhandled (SqliteError_ SQLITE_IOERR) /\
  db (snd run) = Example.db_half /\
  has_selection (db (snd run)) "inv1" = true /\
  is_used (db (snd run)) "inv1" = false.
Proof. vm_compute. repeat split. Qed.



(* ================================================================== *)
(** * The answers of POST /invite/:token *)

Section Answers.
Context `{codec : JSON}.

(** C5, as the code has it. A request that fails one of the checks is
    redirected to the invite page and changes neither the store nor the
    trace. The redirect carries the message of a missing invite, of a
    used invite or of an invalid selection, each for its own cause; when
    the event of the invite is missing or its theme is unknown it
    carries no message and the session is left as it was: the invite
    page it lands on reports those two itself. A request that passes
    the checks is never redirected: it ends with the thank-you page or
    with the storage error its writes threw. *)
Theorem failing_post_invite_redirects
    (env : gmap string string) (o : Oracle) (token : string)
    (body : gmap string formval) (st : State) :
  let r := fst (post_invite env o token body st) in
  let st' := snd (post_invite env o token body st) in
  let told (m : Message) := st' = setFlash {| type := error; message := m |} st in
  (exists s, post_invite_check token body st = Accept s /\
             (r = Render "thanks" None (flash (session st)) \/
              exists e, r = Unhandled (SqliteError_ e)))
  \/
  (r = Redirect (invite_path token) /\ db st' = db st /\ trace st' = trace st /\
   ((select_invite_by_token (db st) token = None /\ told msg_invite_missing)
    \/ (exists inv, select_invite_by_token (db st) token = Some inv /\
                    column_truthy (inv_used_at inv) = true /\ told msg_invite_used)
    \/ (exists inv dn theme,
           select_invite_by_token (db st) token = Some inv /\
           column_truthy (inv_used_at inv) = false /\
           select_date_night (db st) (inv_date_night_id inv) = Some dn /\
           getTheme (dn_theme_id dn) = Some theme /\
           valid_choice (safeParseMenuJson (dn_menu_json dn))
             (JS.trim (field body "dinnerChoice")) (JS.trim (field body "activityChoice"))
             (JS.trim (field body "moodChoice")) = false /\
           told msg_choices_invalid)
    \/ (exists inv,
           select_invite_by_token (db st) token = Some inv /\
           column_truthy (inv_used_at inv) = false /\
           st' = st /\
           ((select_date_night (db st) (inv_date_night_id inv) = None /\
             fst (get_invite token st')
             = Render "thanks" (Some 404)
                 (Some {| type := error; message := msg_event_missing |}))
            \/
            (exists dn, select_date_night (db st) (inv_date_night_id inv) = Some dn /\
                        getTheme (dn_theme_id dn) = None /\
                        fst (get_invite token st')
                        = Render "thanks" (Some 500)
                            (Some {| type := error; message := msg_theme_unknown |})))))).
Proof.
  cbv zeta. unfold post_invite, post_invite_check.
  destruct (select_invite_by_token (db st) token) as [inv|] eqn:Hinv.
  2:{ right. simpl. do 3 (split; [reflexivity|]). left. split; reflexivity. }
  destruct (column_truthy (inv_used_at inv)) eqn:Hused.
  { right. simpl. do 3 (split; [reflexivity|]). right. left. exists inv.
    split; [reflexivity|]. split; [exact Hused | reflexivity]. }
  destruct (select_date_night (db st) (inv_date_night_id inv)) as [dn|] eqn:Hdn.
  2:{ right. simpl. do 3 (split; [reflexivity|]). do 3 right. exists inv.
      split; [reflexivity|]. split; [exact Hused|]. split; [reflexivity|].
      left. split; [exact Hdn|]. unfold get_invite. now rewrite Hinv, Hdn. }
  destruct (getTheme (dn_theme_id dn)) as [theme|] eqn:Hth.
  2:{ right. simpl. do 3 (split; [reflexivity|]). do 3 right. exists inv.
      split; [reflexivity|]. split; [exact Hused|]. split; [reflexivity|].
      right. exists dn. split; [exact Hdn|]. split; [exact Hth|].
      unfold get_invite. now rewrite Hinv, Hdn, Hth. }
  destruct (valid_choice _ _ _ _) eqn:Hv; simpl.
  2:{ right. do 3 (split; [reflexivity|]). right. right. left. exists inv, dn, theme.
      split; [reflexivity|]. split; [exact Hused|]. split; [exact Hdn|].
      split; [exact Hth|]. split; [exact Hv | reflexivity]. }
  left. eexists. split; [reflexivity|].
  destruct (post_invite_record o _ (db st)) as [d [e|]]; simpl.
  - right. now exists e.
  - left. reflexivity.
Qed.



End Answers.

(** C5 as stated does not hold: the invite's event is gone, or its
    theme is not in the catalog; the request is redirected and no
    message is set. *)
Lemma redirect_without_message :
  let o := Example.oracle "sel" Example.no_fault Example.delivered in
  let body := Example.choices "Pasta" "Board games" "Romantic" in
  let dangling := Example.at_db Example.db_dangling Example.guest in
  let themeless := Example.at_db Example.db_themeless Example.guest in
  post_invite (codec := ref_codec) Example.env o "T" body dangling
  = (Redirect "/invite/T", dangling) /\
  post_invite (codec := ref_codec) Example.env o "T" body themeless
  = (Redirect "/invite/T", themeless) /\
  flash (session dangling) = None /\ flash (session themeless) = None.
Proof. vm_compute. repeat split. Qed.


(* ================================================================== *)
(** * What is stored of a submission *)

Section Stored.
Context `{codec : JSON}.

(** An accepted submission whose two writes run ends with the thank-you
    page and one more selection row. *)
Lemma post_invite_accepted env o token body st s :
  post_invite_check token body st = Accept s ->
  sql_fault o 0 = false -> sql_fault o 1 = false ->
  selection_conflict (nanoid o 0) (inv_id (sub_inv s)) (db st) = false ->
  fst (post_invite env o token body st) = Render "thanks" None (flash (session st)) /\
  selections (db (snd (post_invite env o token body st)))
  = selections (db st) ++ [selection_row o s] /\
  date_nights (db (snd (post_invite env o token body st))) = date_nights (db st).
Proof.
  intros Hacc F0 F1 Hc. unfold post_invite.
  rewrite Hacc, post_invite_record_cases, F0, Hc, F1. simpl. repeat split.
Qed.

Lemma field_or_null_white body k :
  all_white (field body k) = true -> field_or_null body k = None.
Proof. intros H. unfold field_or_null. now rewrite (trim_white _ H). Qed.

Lemma field_or_null_nonempty body k : field_or_null body k <> Some EmptyString.
Proof.
  unfold field_or_null. destruct (JS.trim (field body k)); simpl; congruence.
Qed.

(** C10, as the code has it. The three choices are trimmed before the
    membership test and before they are stored: for options [x], [y],
    [z] of the three groups that carry no white space at either end
    themselves, a submission of each with white space around it is
    accepted, and the row written holds [x], [y] and [z]. Notes that are
    empty or white space only are stored as NULL, never as the empty
    string. *)
Theorem choices_are_trimmed
    (env : gmap string string) (o : Oracle) (token : string)
    (body : gmap string formval) (st : State)
    (inv : Invite) (dn : DateNight) (theme : Theme)
    (x y z lx rx ly ry lz rz : string) :
  select_invite_by_token (db st) token = Some inv ->
  column_truthy (inv_used_at inv) = false ->
  select_date_night (db st) (inv_date_night_id inv) = Some dn ->
  getTheme (dn_theme_id dn) = Some theme ->
  let menu := safeParseMenuJson (dn_menu_json dn) in
  In (JStr x) (dinner menu) -> In (JStr y) (activity menu) -> In (JStr z) (mood menu) ->
  JS.trim x = x -> JS.trim y = y -> JS.trim z = z ->
  all_white lx = true -> all_white rx = true ->
  all_white ly = true -> all_white ry = true ->
  all_white lz = true -> all_white rz = true ->
  field body "dinnerChoice" = lx +:+ x +:+ rx ->
  field body "activityChoice" = ly +:+ y +:+ ry ->
  field body "moodChoice" = lz +:+ z +:+ rz ->
  let notes := field_or_null body "notes" in
  let row :=
    {| sel_id := nanoid o 0; sel_invite_id := inv_id inv;
       sel_dinner_choice := x; sel_activity_choice := y; sel_mood_choice := z;
       sel_notes := notes; sel_created_at := now o |} in
  post_invite_check token body st
  = Accept {| sub_inv := inv; sub_dn := dn; sub_theme := theme;
              sub_dinner := x; sub_activity := y; sub_mood := z; sub_notes := notes |} /\
  (sql_fault o 0 = false -> sql_fault o 1 = false ->
   selection_conflict (nanoid o 0) (inv_id inv) (db st) = false ->
   fst (post_invite env o token body st) = Render "thanks" None (flash (session st)) /\
   selections (db (snd (post_invite env o token body st))) = selections (db st) ++ [row]) /\
  (all_white (field body "notes") = true -> notes = None) /\
  notes <> Some EmptyString.
Proof.
  intros Hinv Hused Hdn Hth menu Hx Hy Hz Tx Ty Tz Wlx Wrx Wly Wry Wlz Wrz Fx Fy Fz notes row.
  assert (Hacc : post_invite_check token body st
                 = Accept {| sub_inv := inv; sub_dn := dn; sub_theme := theme;
                             sub_dinner := x; sub_activity := y; sub_mood := z;
                             sub_notes := notes |}).
  { rewrite (post_invite_check_resolved token body st inv dn theme Hinv Hused Hdn Hth).
    rewrite Fx, Fy, Fz, !trim_padded by assumption.
    fold menu. now rewrite (proj2 (valid_choice_In menu x y z) (conj Hx (conj Hy Hz))). }
  split; [exact Hacc|]. split; [|split].
  - intros F0 F1 Hc.
    destruct (post_invite_accepted env o token body st _ Hacc F0 F1 Hc) as (Hr & Hs & _).
    split; [exact Hr | exact Hs].
  - apply field_or_null_white.
  - apply field_or_null_nonempty.
Qed.

End Stored.

(** Pasta, Board games and Romantic submitted with blanks and a tab around
    them, and notes of three blanks: the row written holds the bare
    options and NULL notes. *)
Lemma choices_are_trimmed_witness :
  let o := Example.oracle "sel" Example.no_fault Example.delivered in
  let body : gmap string formval :=
    <["notes" := FStr "   "]> (Example.choices "  Pasta " " Board games" "Romantic	") in
  selections (db (snd (post_invite (codec := ref_codec) Example.env o "T" body
                         (Example.at_db Example.db0 Example.guest))))
  = [Example.pasta_row "sel0"].
Proof.
  cbv zeta.
  destruct (choices_are_trimmed (codec := ref_codec) Example.env
              (Example.oracle "sel" Example.no_fault Example.delivered) "T"
              (<["notes" := FStr "   "]>
                 (Example.choices "  Pasta " " Board games" "Romantic	"))
              (Example.at_db Example.db0 Example.guest)
              Example.inv1 (Example.friday (Example.friday_menu ["Soup"; "Pasta"]))
              cottagecore_classic
              "Pasta" "Board games" "Romantic" "  " " " " " "" "" "	"
              eq_refl eq_refl eq_refl eq_refl
              ltac:(vm_compute; tauto) ltac:(vm_compute; tauto) ltac:(vm_compute; tauto)
              eq_refl eq_refl eq_refl eq_refl eq_refl eq_refl eq_refl eq_refl eq_refl
              ltac:(vm_compute; reflexivity) ltac:(vm_compute; reflexivity)
              ltac:(vm_compute; reflexivity))
    as (_ & Hstored & _).
  destruct (Hstored eq_refl eq_refl eq_refl) as [_ Hrows].
  rewrite Hrows. vm_compute. reflexivity.
Defined.

(** C10 as stated does not hold: the administrator creates an event
    whose dinner group holds the option " Pasta", with its leading
    space, and issues an invite. That option submitted as it is, or with
    more white space around it, is trimmed to "Pasta", which the group
    does not hold, and the submission is refused. *)
Lemma padded_option_is_refused :
  let created_at :=
    snd (post_admin_new (codec := ref_codec)
           (Example.oracle "dn" Example.no_fault Example.delivered)
           (Example.create_form "Friday" ["Soup"; " Pasta"] ["Board games"] ["Romantic"])
           (Example.at_db Example.db_empty Example.admin)) in
  let issued_at :=
    snd (post_admin_invite Example.env
           (Example.oracle "k" Example.no_fault Example.delivered) "dn0"
           (Example.invite_form "pat@example.com") created_at) in
  let st := Example.at_db (db issued_at) Example.guest in
  let menu := safeParseMenuJson (codec := ref_codec)
                (dn_menu_json (Example.created ["Soup"; " Pasta"])) in
  let refused :=
    Reject (Redirect "/invite/k1")
           (setFlash {| type := error; message := msg_choices_invalid |} st) in
  db st = {| date_nights := [Example.created ["Soup"; " Pasta"]];
             invites := [Example.issued "dn0"]; selections := [] |} /\
  includes (dinner menu) " Pasta" = true /\
  "  Pasta " = " " +:+ " Pasta" +:+ " " /\
  post_invite_check (codec := ref_codec) "k1"
    (Example.choices " Pasta" "Board games" "Romantic") st = refused /\
  post_invite_check (codec := ref_codec) "k1"
    (Example.choices "  Pasta " "Board games" "Romantic") st = refused.
Proof. vm_compute. repeat split. Qed.

(* ================================================================== *)
(** * Editing the menu *)

Section Editing.
Context `{codec : JSON}.

Lemma length_eqb_0 {A} (l : list A) : l <> [] -> (length l =? 0)%nat = false.
Proof. destruct l; [congruence | reflexivity]. Qed.

(** The edit that goes through. *)
Lemma post_admin_menu_saved o id body st dn :
  isAdmin (session st) = true ->
  select_date_night (db st) id = Some dn ->
  parseLines (field body "dinner") <> [] ->
  parseLines (field body "activity") <> [] ->
  parseLines (field body "mood") <> [] ->
  sql_fault o 0 = false ->
  post_admin_menu o id body st
  = (Redirect ("/admin/date-night/" +:+ id),
     setFlash {| type := info; message := msg_itinerary_saved |}
       (set_db (menu_saved
                  (JSON_stringify (menu_value (parseLines (field body "dinner"))
                                              (parseLines (field body "activity"))
                                              (parseLines (field body "mood"))))
                  (field_or_null body "blurb") id (db st)) st)).
Proof.
  intros Hadm Hdn Hd Ha Hm F0. unfold post_admin_menu.
  rewrite Hadm, Hdn. simpl.
  rewrite (length_eqb_0 _ Hd), (length_eqb_0 _ Ha), (length_eqb_0 _ Hm). simpl.
  unfold run. now rewrite F0.
Qed.

Lemma select_date_night_saved menuJson blurb id d dn :
  select_date_night d id = Some dn ->
  select_date_night (menu_saved menuJson blurb id d) id = Some (with_menu menuJson blurb dn).
Proof.
  unfold select_date_night, menu_saved. simpl. intros Hdn.
  rewrite find_map_keyed.
  - rewrite Hdn. simpl. apply find_some in Hdn as [_ Hid]. now rewrite Hid.
  - intros x. now destruct (String.eqb (dn_id x) id) eqn:E.
Qed.

Lemma select_date_night_others menuJson blurb id d id' :
  id' <> id ->
  select_date_night (menu_saved menuJson blurb id d) id' = select_date_night d id'.
Proof.
  unfold select_date_night, menu_saved. simpl. intros Hne.
  rewrite find_map_keyed.
  - destruct (find _ (date_nights d)) as [y|] eqn:Hy; [|reflexivity]. simpl.
    apply find_some in Hy as [_ Hy]. apply String.eqb_eq in Hy.
    destruct (String.eqb (dn_id y) id) eqn:E; [|reflexivity].
    apply String.eqb_eq in E. congruence.
  - intros x. now destruct (String.eqb (dn_id x) id) eqn:E.
Qed.

(** A menu written by the editor reads back as the groups written. *)
Lemma safeParseMenuJson_stringify d a m :
  JSON_parse (JSON_stringify (menu_value d a m)) = Some (menu_value d a m) ->
  safeParseMenuJson (JSON_stringify (menu_value d a m))
  = {| dinner := map JStr d; activity := map JStr a; mood := map JStr m |}.
Proof. intros H. unfold safeParseMenuJson. rewrite H. reflexivity. Qed.

(** C7. An edit by the administrator of an event that exists: if one of
    the three parsed groups is empty, the request is answered with the
    message "Please provide at least 1 option in each section" and the
    store is unchanged; otherwise, the write going through, the event's
    menu is replaced by the three parsed groups and its blurb by the
    submitted one, nothing else in the store changes, and the menu reads
    back as those three groups. Either way the menu the event holds
    afterwards is the one it held or one with three non-empty groups. *)
Theorem edit_menu_keeps_groups_nonempty
    (o : Oracle) (id : string) (body : gmap string formval) (st : State) (dn : DateNight) :
  isAdmin (session st) = true ->
  select_date_night (db st) id = Some dn ->
  let d := parseLines (field body "dinner") in
  let a := parseLines (field body "activity") in
  let m := parseLines (field body "mood") in
  let blurb := field_or_null body "blurb" in
  let r := fst (post_admin_menu o id body st) in
  let st' := snd (post_admin_menu o id body st) in
  (d = [] \/ a = [] \/ m = [] ->
   r = Redirect ("/admin/date-night/" +:+ id +:+ "/menu") /\
   st' = setFlash {| type := error; message := msg_section_empty |} st /\
   db st' = db st) /\
  (d <> [] -> a <> [] -> m <> [] -> sql_fault o 0 = false ->
   r = Redirect ("/admin/date-night/" +:+ id) /\
   select_date_night (db st') id
   = Some (with_menu (JSON_stringify (menu_value d a m)) blurb dn) /\
   (forall id', id' <> id -> select_date_night (db st') id' = select_date_night (db st) id') /\
   invites (db st') = invites (db st) /\
   selections (db st') = selections (db st) /\
   (JSON_parse (JSON_stringify (menu_value d a m)) = Some (menu_value d a m) ->
    safeParseMenuJson (JSON_stringify (menu_value d a m))
    = {| dinner := map JStr d; activity := map JStr a; mood := map JStr m |})) /\
  (exists row,
      select_date_night (db st') id = Some row /\
      ((dn_menu_json row = dn_menu_json dn /\ dn_blurb row = dn_blurb dn) \/
       (exists d1 a1 m1,
           d1 <> [] /\ a1 <> [] /\ m1 <> [] /\
           dn_menu_json row = JSON_stringify (menu_value d1 a1 m1)))).
Proof.
  intros Hadm Hdn d a m blurb r st'.
  assert (Hrej : d = [] \/ a = [] \/ m = [] ->
                 post_admin_menu o id body st
                 = (Redirect ("/admin/date-night/" +:+ id +:+ "/menu"),
                    setFlash {| type := error; message := msg_section_empty |} st)).
  { intros He. unfold post_admin_menu. rewrite Hadm, Hdn. simpl. fold d a m.
    destruct He as [->|[->| ->]]; simpl; rewrite ?orb_true_r; reflexivity. }
  split; [|split].
  - intros He. subst r st'. rewrite (Hrej He). repeat split.
  - intros Hd Ha Hm F0. subst r st'.
    rewrite (post_admin_menu_saved o id body st dn Hadm Hdn Hd Ha Hm F0). simpl.
    fold d a m blurb.
    split; [reflexivity|].
    split; [now apply select_date_night_saved|].
    split; [intros id' Hne; now apply select_date_night_others|].
    split; [reflexivity|]. split; [reflexivity|].
    apply safeParseMenuJson_stringify.
  - subst st'.
    destruct (list_eq_nil_dec d) as [Hd|Hd];
      [rewrite (Hrej (or_introl Hd)); exists dn; simpl; auto|].
    destruct (list_eq_nil_dec a) as [Ha|Ha];
      [rewrite (Hrej (or_intror (or_introl Ha))); exists dn; simpl; auto|].
    destruct (list_eq_nil_dec m) as [Hm|Hm];
      [rewrite (Hrej (or_intror (or_intror Hm))); exists dn; simpl; auto|].
    destruct (sql_fault o 0) eqn:F0.
    + exists dn. unfold post_admin_menu. rewrite Hadm, Hdn. simpl. fold d a m.
      rewrite (length_eqb_0 _ Hd), (length_eqb_0 _ Ha), (length_eqb_0 _ Hm). simpl.
      unfold run. rewrite F0. simpl. auto.
    + rewrite (post_admin_menu_saved o id body st dn Hadm Hdn Hd Ha Hm F0). simpl.
      eexists. split; [exact (select_date_night_saved _ _ _ _ _ Hdn)|].
      right. exists d, a, m.
      split; [exact Hd|]. split; [exact Ha|]. split; [exact Hm | reflexivity].
Qed.

End Editing.

(** The dinner text of the form holds Soup, an indented Tacos and blank
    lines: the menu saved holds Soup and Tacos, the blurb is trimmed. *)
Lemma edit_menu_keeps_groups_nonempty_witness :
  let run := post_admin_menu (codec := ref_codec)
               (Example.oracle "x" Example.no_fault Example.delivered) "dn1"
               (Example.menu_form "Soup
  Tacos

" "Board games" "Romantic") (Example.at_db Example.db0 Example.admin) in
  fst run = Redirect "/admin/date-night/dn1" /\
  (dn_menu_json <$> select_date_night (db (snd run)) "dn1")
  = Some (RefJSON.stringify (menu_value ["Soup"; "Tacos"] ["Board games"] ["Romantic"])) /\
  (dn_blurb <$> select_date_night (db (snd run)) "dn1") = Some (Some "Candlelight").
Proof.
  cbv zeta.
  destruct (edit_menu_keeps_groups_nonempty (codec := ref_codec)
              (Example.oracle "x" Example.no_fault Example.delivered) "dn1"
              (Example.menu_form "Soup
  Tacos

" "Board games" "Romantic") (Example.at_db Example.db0 Example.admin)
              (Example.friday (Example.friday_menu ["Soup"; "Pasta"]))
              eq_refl eq_refl) as (_ & Hsaved & _).
  destruct Hsaved as (Hr & Hrow & _);
    [vm_compute; discriminate | vm_compute; discriminate | vm_compute; discriminate
    | reflexivity |].
  split; [exact Hr|]. rewrite Hrow. vm_compute. split; reflexivity.
Defined.

(* ================================================================== *)
(** * The menu is read at submission time *)

Section Live.
Context `{codec : JSON}.

(** C4. An invite of an event whose dinner group holds Pasta; the
    administrator then saves a menu whose dinner group holds Tacos and
    no Pasta; the invite is still pending. Before the edit a submission
    of Pasta passes the dinner test. After it, whoever submits and
    whatever else is submitted, Pasta is answered with the message of an
    invalid selection, and Tacos with an activity and a mood of the new
    menu is recorded and answered with the thank-you page. *)
Theorem menu_is_a_live_reference
    (env : gmap string string) (oe os : Oracle) (token : string)
    (edit submit : gmap string formval) (st : State)
    (inv : Invite) (dn : DateNight) (theme : Theme)
    (guest : Session) (tr : list Effect) :
  select_invite_by_token (db st) token = Some inv ->
  column_truthy (inv_used_at inv) = false ->
  select_date_night (db st) (inv_date_night_id inv) = Some dn ->
  getTheme (dn_theme_id dn) = Some theme ->
  In (JStr "Pasta") (dinner (safeParseMenuJson (dn_menu_json dn))) ->
  isAdmin (session st) = true ->
  let d := parseLines (field edit "dinner") in
  let a := parseLines (field edit "activity") in
  let m := parseLines (field edit "mood") in
  In "Tacos" d -> ~ In "Pasta" d -> a <> [] -> m <> [] ->
  sql_fault oe 0 = false ->
  JSON_parse (JSON_stringify (menu_value d a m)) = Some (menu_value d a m) ->
  let edited := db (snd (post_admin_menu oe (inv_date_night_id inv) edit st)) in
  let before := {| db := db st; session := guest; trace := tr |} in
  let after := {| db := edited; session := guest; trace := tr |} in
  includes (dinner (safeParseMenuJson (dn_menu_json dn))) "Pasta" = true /\
  (JS.trim (field submit "dinnerChoice") = "Pasta" ->
   post_invite env os token submit after
   = (Redirect (invite_path token),
      setFlash {| type := error; message := msg_choices_invalid |} after)) /\
  (JS.trim (field submit "dinnerChoice") = "Tacos" ->
   In (JS.trim (field submit "activityChoice")) a ->
   In (JS.trim (field submit "moodChoice")) m ->
   sql_fault os 0 = false -> sql_fault os 1 = false ->
   selection_conflict (nanoid os 0) (inv_id inv) (db st) = false ->
   fst (post_invite env os token submit after) = Render "thanks" None (flash guest) /\
   exists row,
     selections (db (snd (post_invite env os token submit after)))
     = selections (db st) ++ [row] /\
     sel_invite_id row = inv_id inv /\ sel_dinner_choice row = "Tacos").
Proof.
  intros Hinv Hused Hdn Hth Hold Hadm d a m Htacos Hpasta Ha Hm F0 Hrt edited before after.
  assert (Hd : d <> []) by (intros E; rewrite E in Htacos; exact Htacos).
  pose proof (post_admin_menu_saved oe _ edit st dn Hadm Hdn Hd Ha Hm F0) as Hsaved.
  fold d a m in Hsaved.
  assert (Hedited : edited = menu_saved (JSON_stringify (menu_value d a m))
                               (field_or_null edit "blurb") (inv_date_night_id inv) (db st)).
  { subst edited. now rewrite Hsaved. }
  set (dn' := with_menu (JSON_stringify (menu_value d a m)) (field_or_null edit "blurb") dn).
  assert (Hinv' : select_invite_by_token (db after) token = Some inv).
  { simpl. rewrite Hedited. exact Hinv. }
  assert (Hdn' : select_date_night (db after) (inv_date_night_id inv) = Some dn').
  { simpl. rewrite Hedited. now apply select_date_night_saved. }
  assert (Hth' : getTheme (dn_theme_id dn') = Some theme) by exact Hth.
  pose proof (post_invite_check_resolved token submit after inv dn' theme
                Hinv' Hused Hdn' Hth') as Hcheck.
  simpl dn_menu_json in Hcheck. rewrite (safeParseMenuJson_stringify d a m Hrt) in Hcheck.
  unfold valid_choice in Hcheck. simpl in Hcheck.
  split; [now apply includes_In|]. split.
  - intros Hp. rewrite Hp in Hcheck.
    destruct (includes (map JStr d) "Pasta") eqn:E.
    { exfalso. apply Hpasta. now apply includes_map_JStr. }
    simpl in Hcheck. unfold post_invite. now rewrite Hcheck.
  - intros Ht Hact Hmood G0 G1 Hconf.
    rewrite Ht in Hcheck.
    rewrite (proj2 (includes_map_JStr d "Tacos") Htacos) in Hcheck.
    rewrite (proj2 (includes_map_JStr a _) Hact) in Hcheck.
    rewrite (proj2 (includes_map_JStr m _) Hmood) in Hcheck.
    simpl in Hcheck.
    assert (Hconf' : selection_conflict (nanoid os 0) (inv_id inv) (db after) = false).
    { simpl. rewrite Hedited. exact Hconf. }
    destruct (post_invite_accepted env os token submit after _ Hcheck G0 G1 Hconf')
      as (Hr & Hs & _).
    split; [exact Hr|]. eexists. split.
    + rewrite Hs. simpl. rewrite Hedited. reflexivity.
    + split; reflexivity.
Qed.

End Live.

(** The scenario end to end, from the empty store: the event is created
    with dinner options Soup and Pasta; an invite is issued (token k1);
    the menu is edited to Soup and Tacos; Pasta is then refused and
    Tacos is recorded. *)
Lemma menu_is_a_live_reference_witness :
  let o := Example.oracle "k" Example.no_fault Example.delivered in
  let os := Example.oracle "sel" Example.no_fault Example.delivered in
  let created_at :=
    snd (post_admin_new (codec := ref_codec)
           (Example.oracle "dn" Example.no_fault Example.delivered)
           (Example.create_form "Friday" ["Soup"; "Pasta"] ["Board games"] ["Romantic"])
           (Example.at_db Example.db_empty Example.admin)) in
  let issued_at :=
    snd (post_admin_invite Example.env o "dn0" (Example.invite_form "pat@example.com")
           created_at) in
  let edited :=
    db (snd (post_admin_menu (codec := ref_codec) o "dn0"
               (Example.menu_form "Soup
Tacos" "Board games" "Romantic") issued_at)) in
  let after := Example.at_db edited Example.guest in
  post_invite (codec := ref_codec) Example.env os "k1"
    (Example.choices "Pasta" "Board games" "Romantic") after
  = (Redirect "/invite/k1",
     setFlash {| type := error; message := msg_choices_invalid |} after) /\
  fst (post_invite (codec := ref_codec) Example.env os "k1"
         (Example.choices "Tacos" "Board games" "Romantic") after)
  = Render "thanks" None None.
Proof.
  cbv zeta.
  pose proof (fun submit =>
    menu_is_a_live_reference (codec := ref_codec) Example.env
      (Example.oracle "k" Example.no_fault Example.delivered)
      (Example.oracle "sel" Example.no_fault Example.delivered) "k1"
      (Example.menu_form "Soup
Tacos" "Board games" "Romantic")
      submit
      (snd (post_admin_invite Example.env
              (Example.oracle "k" Example.no_fault Example.delivered) "dn0"
              (Example.invite_form "pat@example.com")
              (snd (post_admin_new (codec := ref_codec)
                      (Example.oracle "dn" Example.no_fault Example.delivered)
                      (Example.create_form "Friday" ["Soup"; "Pasta"]
                         ["Board games"] ["Romantic"])
                      (Example.at_db Example.db_empty Example.admin)))))
      (Example.issued "dn0") (Example.created ["Soup"; "Pasta"])
      cottagecore_classic Example.guest []
      ltac:(vm_compute; reflexivity) eq_refl ltac:(vm_compute; reflexivity) eq_refl
      ltac:(vm_compute; tauto) ltac:(vm_compute; reflexivity)
      ltac:(vm_compute; tauto)
      ltac:(vm_compute; intros [H|[H|[]]]; discriminate)
      ltac:(vm_compute; discriminate) ltac:(vm_compute; discriminate)
      eq_refl ltac:(vm_compute; reflexivity)) as Hlive.
  split.
  - destruct (Hlive (Example.choices "Pasta" "Board games" "Romantic")) as (_ & Hpasta & _).
    apply Hpasta. vm_compute. reflexivity.
  - destruct (Hlive (Example.choices "Tacos" "Board games" "Romantic")) as (_ & _ & Htacos).
    destruct Htacos as [Hr _];
      [vm_compute; reflexivity | vm_compute; tauto | vm_compute; tauto
      | reflexivity | reflexivity | vm_compute; reflexivity | exact Hr].
Defined.

(* ================================================================== *)
(** * Re-sending an invite *)

Lemma find_app_fresh {A} (p : A -> bool) (l : list A) (x : A) :
  existsb p l = false -> p x = true -> find p (l ++ [x]) = Some x.
Proof.
  induction l as [|y l IH]; simpl; intros He Hx.
  - now rewrite Hx.
  - apply orb_false_iff in He as [Hy Hl]. rewrite Hy. auto.
Qed.

Lemma invite_conflict_no_id id token d :
  invite_conflict id token d = false ->
  existsb (fun i => String.eqb (inv_id i) id) (invites d) = false.
Proof.
  unfold invite_conflict. induction (invites d) as [|y l IH]; simpl; [reflexivity|].
  intros [Hy Hl]%orb_false_iff. apply orb_false_iff in Hy as [-> _]. auto.
Qed.

Lemma field_or_null_truthy body k v : field_or_null body k = Some v -> JS.truthy v = true.
Proof.
  unfold field_or_null. destruct (JS.truthy (JS.trim (field body k))) eqn:E; [|discriminate].
  now intros [= <-].
Qed.

(** What POST /admin/invite/:inviteId/resend does when the invite has a
    recipient and its event and theme resolve. *)
Lemma post_admin_resend_sends env o inviteId st inv to dn theme :
  isAdmin (session st) = true ->
  select_invite_by_id (db st) inviteId = Some inv ->
  inv_recipient_email inv = Some to -> JS.truthy to = true ->
  select_date_night (db st) (inv_date_night_id inv) = Some dn ->
  getTheme (dn_theme_id dn) = Some theme ->
  let sent :=
    sendEmail env (fetch o 0) to
      (renderInviteEmail (dn_title dn) (theme_name theme) (theme_blurb theme)
         (baseUrl env +:+ invite_path (inv_token inv))) in
  post_admin_resend env o inviteId st
  = (Redirect ("/admin/date-night/" +:+ dn_id dn),
     setFlash match snd sent with
              | None => {| type := info; message := msg_resent |}
              | Some e => {| type := error; message := msg_resend_failed e |}
              end (emit (fst sent) st)).
Proof.
  intros Hadm Hinv Hto Ht Hdn Hth sent. subst sent. unfold post_admin_resend.
  rewrite Hadm, Hinv, Hto, Ht, Hdn, Hth. simpl.
  now destruct (sendEmail _ _ _ _) as [es [e|]].
Qed.

(** What POST /admin/date-night/:id/invite does when a recipient is
    given and the new row is admitted. *)
Lemma post_admin_invite_sends env o dateNightId body st dn theme to :
  isAdmin (session st) = true ->
  select_date_night (db st) dateNightId = Some dn ->
  getTheme (dn_theme_id dn) = Some theme ->
  field_or_null body "recipientEmail" = Some to ->
  sql_fault o 0 = false ->
  invite_conflict (nanoid o 0) (nanoid o 1) (db st) = false ->
  let row := {| inv_id := nanoid o 0; inv_date_night_id := dateNightId;
                inv_token := nanoid o 1; inv_recipient_email := Some to;
                inv_used_at := None; inv_created_at := now o |} in
  let sent :=
    sendEmail env (fetch o 0) to
      (renderInviteEmail (dn_title dn) (theme_name theme) (theme_blurb theme)
         (baseUrl env +:+ invite_path (nanoid o 1))) in
  let st' := snd (post_admin_invite env o dateNightId body st) in
  db st' = {| date_nights := date_nights (db st); invites := invites (db st) ++ [row];
              selections := selections (db st) |} /\
  isAdmin (session st') = true /\
  trace st' = trace st ++ fst sent.
Proof.
  intros Hadm Hdn Hth Hto F0 Hc row sent st'. subst st' sent row.
  unfold post_admin_invite. rewrite Hadm, Hdn, Hth, Hto. simpl.
  unfold run, insert_invite. rewrite F0. simpl. rewrite Hc.
  destruct (sendEmail _ _ _ _) as [es [e|]]; simpl; rewrite Hadm; repeat split.
Qed.

(** C8. Re-sending an invite leaves the store as it is, whatever the
    request and whatever [fetch] answers: no row of invites, selections
    or events is added, removed or changed, so the token and the used
    mark stay. It draws no identifier. What it dispatches, if anything,
    is the invite email to the invite's recipient with the link of the
    invite's own token; it does so for every invite with a recipient
    whose event and theme resolve, and for an invite just issued that
    email is the one the issue dispatched. *)
Theorem resend_changes_nothing_stored
    (env : gmap string string) (o : Oracle) (inviteId : string) (st : State) :
  let r := fst (post_admin_resend env o inviteId st) in
  let st' := snd (post_admin_resend env o inviteId st) in
  db st' = db st /\
  (trace st' = trace st \/
   exists inv to dn theme,
     select_invite_by_id (db st) inviteId = Some inv /\
     inv_recipient_email inv = Some to /\
     select_date_night (db st) (inv_date_night_id inv) = Some dn /\
     getTheme (dn_theme_id dn) = Some theme /\
     trace st' = trace st ++
                 fst (sendEmail env (fetch o 0) to
                        (renderInviteEmail (dn_title dn) (theme_name theme)
                           (theme_blurb theme)
                           (baseUrl env +:+ invite_path (inv_token inv))))) /\
  (forall o2, fetch o2 0 = fetch o 0 ->
              post_admin_resend env o2 inviteId st = post_admin_resend env o inviteId st) /\
  (forall inv to dn theme,
      isAdmin (session st) = true ->
      select_invite_by_id (db st) inviteId = Some inv ->
      inv_recipient_email inv = Some to -> to <> EmptyString ->
      select_date_night (db st) (inv_date_night_id inv) = Some dn ->
      getTheme (dn_theme_id dn) = Some theme ->
      let sent :=
        sendEmail env (fetch o 0) to
          (renderInviteEmail (dn_title dn) (theme_name theme) (theme_blurb theme)
             (baseUrl env +:+ invite_path (inv_token inv))) in
      r = Redirect ("/admin/date-night/" +:+ dn_id dn) /\
      trace st' = trace st ++ fst sent /\
      flash (session st')
      = Some match snd sent with
             | None => {| type := info; message := msg_resent |}
             | Some e => {| type := error; message := msg_resend_failed e |}
             end) /\
  (forall oi dateNightId body st0 dn theme to,
      st = snd (post_admin_invite env oi dateNightId body st0) ->
      inviteId = nanoid oi 0 ->
      isAdmin (session st0) = true ->
      select_date_night (db st0) dateNightId = Some dn ->
      getTheme (dn_theme_id dn) = Some theme ->
      field_or_null body "recipientEmail" = Some to ->
      sql_fault oi 0 = false ->
      invite_conflict (nanoid oi 0) (nanoid oi 1) (db st0) = false ->
      let mail :=
        renderInviteEmail (dn_title dn) (theme_name theme) (theme_blurb theme)
          (baseUrl env +:+ invite_path (nanoid oi 1)) in
      trace st = trace st0 ++ fst (sendEmail env (fetch oi 0) to mail) /\
      trace st' = trace st ++ fst (sendEmail env (fetch o 0) to mail)).
Proof.
  cbv zeta. split; [|split; [|split; [|split]]].
  - unfold post_admin_resend.
    destruct (isAdmin (session st)); simpl; [|reflexivity].
    destruct (select_invite_by_id (db st) inviteId) as [inv|]; [|reflexivity].
    destruct (inv_recipient_email inv) as [to|]; [|reflexivity].
    destruct (JS.truthy to); simpl; [|reflexivity].
    destruct (select_date_night (db st) (inv_date_night_id inv)) as [dn|]; [|reflexivity].
    destruct (getTheme (dn_theme_id dn)) as [theme|]; [|reflexivity].
    now destruct (sendEmail _ _ _ _) as [es [e|]].
  - unfold post_admin_resend.
    destruct (isAdmin (session st)); simpl; [|now left].
    destruct (select_invite_by_id (db st) inviteId) as [inv|]; [|now left].
    destruct (inv_recipient_email inv) as [to|] eqn:Hto; [|now left].
    destruct (JS.truthy to); simpl; [|now left].
    destruct (select_date_night (db st) (inv_date_night_id inv)) as [dn|] eqn:Hdn;
      [|now left].
    destruct (getTheme (dn_theme_id dn)) as [theme|] eqn:Hth; [|now left].
    right. exists inv, to, dn, theme.
    do 4 (split; [assumption || reflexivity|]).
    now destruct (sendEmail _ _ _ _) as [es [e|]].
  - intros o2 H2. unfold post_admin_resend. now rewrite H2.
  - intros inv to dn theme Hadm Hinv Hto Hne%truthy_nonempty Hdn Hth.
    rewrite (post_admin_resend_sends env o inviteId st inv to dn theme
               Hadm Hinv Hto Hne Hdn Hth).
    simpl. repeat split.
  - intros oi dateNightId body st0 dn theme to Hst Hid Hadm Hdn Hth Hto F0 Hc.
    destruct (post_admin_invite_sends env oi dateNightId body st0 dn theme to
                Hadm Hdn Hth Hto F0 Hc) as (Hdb & Hadm' & Htr).
    rewrite <- Hst in Hdb, Hadm', Htr. split; [exact Htr|].
    set (row := {| inv_id := nanoid oi 0; inv_date_night_id := dateNightId;
                   inv_token := nanoid oi 1; inv_recipient_email := Some to;
                   inv_used_at := None; inv_created_at := now oi |}) in *.
    assert (Hinv : select_invite_by_id (db st) inviteId = Some row).
    { rewrite Hdb, Hid. unfold select_invite_by_id. simpl.
      apply find_app_fresh; [|apply String.eqb_refl].
      exact (invite_conflict_no_id _ _ _ Hc). }
    assert (Hdn' : select_date_night (db st) (inv_date_night_id row) = Some dn).
    { rewrite Hdb. exact Hdn. }
    rewrite (post_admin_resend_sends env o inviteId st row to dn theme
               Hadm' Hinv eq_refl (field_or_null_truthy _ _ _ Hto) Hdn' Hth).
    simpl. reflexivity.
Qed.

(** An invite is issued with a recipient and then re-sent while the
    network is unreachable: the store is the same, the one invite row
    keeps its token, and the trace holds the same email twice. *)
Lemma resend_changes_nothing_stored_witness :
  let oi := Example.oracle "k" Example.no_fault Example.delivered in
  let issued_at :=
    snd (post_admin_invite Example.env oi "dn1" (Example.invite_form "pat@example.com")
           (Example.at_db Example.db_fresh Example.admin)) in
  let resent :=
    snd (post_admin_resend Example.env
           (Example.oracle "unused" Example.no_fault Example.unreachable) "k0" issued_at) in
  let mail :=
    fetch_resend DEFAULT_FROM "pat@example.com"
      (renderInviteEmail "Friday" "Cottagecore Classic"
         "Warm bread, soft blankets, candlelight, and gentle joy."
         "https://cottage.example/invite/k1") in
  db resent = db issued_at /\
  invites (db resent) = [Example.issued "dn1"] /\
  trace issued_at = [mail] /\
  trace resent = [mail; mail].
Proof.
  cbv zeta.
  destruct (resend_changes_nothing_stored Example.env
              (Example.oracle "unused" Example.no_fault Example.unreachable) "k0"
              (snd (post_admin_invite Example.env
                      (Example.oracle "k" Example.no_fault Example.delivered) "dn1"
                      (Example.invite_form "pat@example.com")
                      (Example.at_db Example.db_fresh Example.admin))))
    as (Hdb & _ & _ & _ & Hissue).
  destruct (Hissue (Example.oracle "k" Example.no_fault Example.delivered) "dn1"
              (Example.invite_form "pat@example.com")
              (Example.at_db Example.db_fresh Example.admin)
              (Example.friday (Example.friday_menu ["Soup"; "Pasta"]))
              cottagecore_classic "pat@example.com"
              eq_refl ltac:(vm_compute; reflexivity) eq_refl eq_refl eq_refl
              ltac:(vm_compute; reflexivity) eq_refl ltac:(vm_compute; reflexivity))
    as (Hfirst & Hsecond).
  split; [exact Hdb|]. rewrite Hdb, Hsecond, Hfirst.
  vm_compute. repeat split.
Defined.

(* ================================================================== *)
(** * Lines of the menu editor *)

Lemma has_char_app c (a b : string) : has_char c (a +:+ b) = has_char c a || has_char c b.
Proof.
  induction a as [|x a IH]; [reflexivity|].
  rewrite app_cons. simpl. now rewrite IH, orb_assoc.
Qed.

Lemma has_char_trimStart c s : has_char c s = false -> has_char c (JS.trimStart s) = false.
Proof.
  induction s as [|x r IH]; simpl; [reflexivity|].
  intros [Hx Hr]%orb_false_iff.
  destruct (JS.is_white_space x); [auto|]. simpl. now rewrite Hx, Hr.
Qed.

Lemma has_char_trimEnd c s : has_char c s = false -> has_char c (JS.trimEnd s) = false.
Proof.
  induction s as [|x r IH]; simpl; [reflexivity|].
  intros [Hx Hr]%orb_false_iff. specialize (IH Hr).
  destruct (JS.trimEnd r) as [|y t].
  - destruct (JS.is_white_space x); [reflexivity|]. simpl. now rewrite Hx.
  - change (has_char c (String x (String y t)))
      with (Ascii.eqb x c || has_char c (String y t)).
    now rewrite Hx, IH.
Qed.

Lemma split_lf_not_nil s : JS.split_lf s <> [].
Proof.
  destruct s as [|c r]; simpl; [discriminate|].
  destruct (Ascii.eqb c "010"); [discriminate|].
  destruct (JS.split_lf r); discriminate.
Qed.

Lemma split_lf_no_lf s x : In x (JS.split_lf s) -> has_char "010" x = false.
Proof.
  revert x. induction s as [|c r IH]; simpl; intros x.
  - intros [<-|[]]. reflexivity.
  - destruct (Ascii.eqb c "010") eqn:Hc.
    + intros [<-|Hin]; [reflexivity | auto].
    + destruct (JS.split_lf r) as [|h t] eqn:Hr.
      * intros [<-|[]]. simpl. now rewrite Hc.
      * intros [<-|Hin].
        -- simpl. rewrite Hc. apply IH. now left.
        -- apply IH. now right.
Qed.




Lemma parseLines_clean (input x : string) :
  In x (parseLines input) ->
  x <> EmptyString /\ JS.trim x = x /\ has_char "010" x = false.
Proof.
  unfold parseLines. intros [Hin Ht]%List.filter_In.
  apply in_map_iff in Hin as [y [<- Hy]].
  split; [now apply truthy_nonempty|]. split; [apply trim_idem|].
  unfold JS.trim. apply has_char_trimStart, has_char_trimEnd.
  now apply (split_lf_no_lf input).
Qed.

(** X1. Every line [parseLines] keeps is non-empty, carries no white
    space at either end and holds no line feed; and every line of the
    input that is not blank is kept, trimmed. *)
Theorem parseLines_keeps_clean_lines (input : string) :
  (forall x, In x (parseLines input) ->
             x <> EmptyString /\ JS.trim x = x /\ has_char "010" x = false) /\
  (forall line, In line (JS.split_lf input) -> JS.trim line <> EmptyString ->
                In (JS.trim line) (parseLines input)).
Proof.
  split.
  - intros x. apply parseLines_clean.
  - intros line Hin Hne. unfold parseLines. apply List.filter_In. split.
    + now apply in_map.
    + now apply truthy_nonempty.
Qed.

(** Of the lines Soup, an indented Tacos, a blank one and Stew, Tacos is
    kept without its blanks. *)
Lemma parseLines_keeps_clean_lines_witness :
  In "Tacos" (parseLines "Soup
   Tacos  

Stew") /\ JS.trim "Tacos" = "Tacos".
Proof.
  destruct (parseLines_keeps_clean_lines "Soup
   Tacos  

Stew") as [Hclean Hkept].
  assert (Hin : In "Tacos" (parseLines "Soup
   Tacos  

Stew")).
  { apply (Hkept "   Tacos  "); [vm_compute; tauto | vm_compute; discriminate]. }
  split; [exact Hin | exact (proj1 (proj2 (Hclean _ Hin)))].
Defined.



(* ================================================================== *)
(** * Escaping and links *)

Lemma esc_char_cases c :
  (esc_char c = String c EmptyString /\ c <> "&"%char) \/
  (c = "&"%char /\ esc_char c = "&amp;") \/
  (c = "<"%char /\ esc_char c = "&lt;") \/
  (c = ">"%char /\ esc_char c = "&gt;") \/
  (c = "034"%char /\ esc_char c = "&quot;") \/
  (c = "'"%char /\ esc_char c = "&#39;").
Proof.
  destruct c as [[] [] [] [] [] [] [] []];
    first [ left; split; [reflexivity | discriminate]
          | right; left; split; reflexivity
          | right; right; left; split; reflexivity
          | right; right; right; left; split; reflexivity
          | right; right; right; right; left; split; reflexivity
          | right; right; right; right; right; split; reflexivity ].
Qed.

Lemma esc_char_plain c :
  c <> "&"%char -> c <> "<"%char -> c <> ">"%char -> c <> "'"%char -> c <> "034"%char ->
  esc_char c = String c EmptyString.
Proof.
  intros Ha Hl Hg Hq Hd.
  destruct (esc_char_cases c) as [[H _]|[[E _]|[[E _]|[[E _]|[[E _]|[E _]]]]]];
    [exact H | congruence..].
Qed.

Lemma esc_char_safe c x :
  In x ["<"; ">"; "'"; "034"]%char -> has_char x (esc_char c) = false.
Proof.
  intros [<-|[<-|[<-|[<-|[]]]]];
    destruct c as [[] [] [] [] [] [] [] []]; reflexivity.
Qed.

(** X3. [esc] leaves none of the characters [<], [>], the double quote
    and the apostrophe in its result; it returns a text that holds none
    of the five special characters as it is; and two different texts are
    never escaped to the same text. *)
Theorem esc_is_safe_and_injective (s t : string) :
  (forall x, In x ["<"; ">"; "'"; "034"]%char -> has_char x (esc s) = false) /\
  (has_char "&" s = false -> has_char "<" s = false -> has_char ">" s = false ->
   has_char "'" s = false -> has_char "034" s = false -> esc s = s) /\
  (esc s = esc t -> s = t).
Proof.
  split; [|split].
  - intros x Hx. induction s as [|c r IH]; [reflexivity|].
    simpl. now rewrite has_char_app, (esc_char_safe c x Hx), IH.
  - induction s as [|c r IH]; [reflexivity|]. simpl.
    intros [Ha Hra]%orb_false_iff [Hl Hrl]%orb_false_iff [Hg Hrg]%orb_false_iff
           [Hq Hrq]%orb_false_iff [Hd Hrd]%orb_false_iff.
    rewrite (IH Hra Hrl Hrg Hrq Hrd).
    rewrite esc_char_plain; [reflexivity|..]; now apply Ascii.eqb_neq.
  - revert t. induction s as [|c r IH]; intros [|c' r'].
    + reflexivity.
    + simpl. destruct (esc_char_cases c') as [[-> _]|[[_ ->]|[[_ ->]|[[_ ->]|[[_ ->]|[_ ->]]]]]];
        discriminate.
    + simpl. destruct (esc_char_cases c) as [[-> _]|[[_ ->]|[[_ ->]|[[_ ->]|[[_ ->]|[_ ->]]]]]];
        discriminate.
    + simpl.
      destruct (esc_char_cases c) as [[-> Hc]|[[-> ->]|[[-> ->]|[[-> ->]|[[-> ->]|[-> ->]]]]]];
      destruct (esc_char_cases c') as [[-> Hc']|[[-> ->]|[[-> ->]|[[-> ->]|[[-> ->]|[-> ->]]]]]];
        rewrite ?app_cons, ?app_empty; intros H;
        try discriminate H;
        try (injection H as H; f_equal; now apply IH);
        try (injection H as -> H; f_equal; now apply IH);
        try (injection H as E _; now contradict Hc);
        try (injection H as E _; symmetry in E; now contradict Hc').
Qed.

(** A title with markup in it is escaped to a text without [<] or [>]. *)
Lemma esc_is_safe_and_injective_witness :
  has_char "<" (esc "<b>Fish & chips</b>") = false /\
  esc "Friday" = "Friday" /\
  "a<b" = "a<b".
Proof.
  destruct (esc_is_safe_and_injective "<b>Fish & chips</b>" "") as (Hsafe & _ & _).
  destruct (esc_is_safe_and_injective "Friday" "") as (_ & Hplain & _).
  destruct (esc_is_safe_and_injective "a<b" "a<b") as (_ & _ & Hinj).
  split; [apply Hsafe; simpl; auto|].
  split; [apply Hplain; reflexivity | apply Hinj; reflexivity].
Defined.

Lemma strip_trailing_slash_slash u : JS.strip_trailing_slash (u +:+ "/") = u.
Proof.
  induction u as [|c r IH]; [reflexivity|].
  rewrite app_cons. simpl. rewrite IH.
  destruct r; reflexivity.
Qed.

Lemma strip_trailing_slash_other u c :
  c <> "/"%char -> JS.strip_trailing_slash (u +:+ String c EmptyString) = u +:+ String c EmptyString.
Proof.
  intros Hc. induction u as [|x r IH].
  - rewrite app_empty. simpl. destruct (Ascii.eqb c "/") eqn:E; [|reflexivity].
    apply Ascii.eqb_eq in E. congruence.
  - rewrite app_cons. simpl. rewrite IH. destruct r; reflexivity.
Qed.

(** X4. [baseUrl] drops one slash from the end of BASE_URL and nothing
    else: a BASE_URL given with a final slash and the same one given
    without it yield the same base, so the same invite links; when
    BASE_URL is unset or empty the base is http://localhost:3000. *)
Theorem baseUrl_drops_one_final_slash (env : gmap string string) (u : string) (c : ascii) :
  (env !! "BASE_URL" = Some (u +:+ "/") -> u <> EmptyString -> baseUrl env = u) /\
  (env !! "BASE_URL" = Some (u +:+ String c EmptyString) -> c <> "/"%char ->
   baseUrl env = u +:+ String c EmptyString) /\
  (default EmptyString (env !! "BASE_URL") = EmptyString ->
   baseUrl env = "http://localhost:3000").
Proof.
  unfold baseUrl. split; [|split].
  - intros -> Hu. simpl. destruct u as [|x r]; [congruence|].
    rewrite app_cons. unfold JS.or_else. simpl JS.truthy. cbv iota.
    rewrite <- app_cons. apply strip_trailing_slash_slash.
  - intros -> Hc. simpl. unfold JS.or_else.
    assert (Ht : JS.truthy (u +:+ String c EmptyString) = true) by now destruct u.
    rewrite Ht. now apply strip_trailing_slash_other.
  - intros ->. reflexivity.
Qed.

(** The deployment of the examples sets BASE_URL with a final slash. *)
Lemma baseUrl_drops_one_final_slash_witness :
  baseUrl Example.env = "https://cottage.example" /\
  baseUrl (<["BASE_URL" := "https://cottage.example"]> Example.env) = "https://cottage.example".
Proof.
  destruct (baseUrl_drops_one_final_slash Example.env "https://cottage.example" "e")
    as (Hslash & _).
  destruct (baseUrl_drops_one_final_slash
              (<["BASE_URL" := "https://cottage.example"]> Example.env)
              "https://cottage.exampl" "e") as (_ & Hplain & _).
  split; [apply Hslash; [reflexivity | discriminate]
         | apply Hplain; [reflexivity | discriminate]].
Defined.

(* ================================================================== *)
(** * What a request does to the store *)

Lemma existsb_eqb_notin {A} (f : A -> string) (k : string) (l : list A) :
  existsb (fun y => String.eqb (f y) k) l = false -> k ∉ (f <$> l).
Proof.
  induction l as [|y l IH]; simpl; intros H.
  - apply not_elem_of_nil.
  - apply orb_false_iff in H as [Hy Hl]. apply String.eqb_neq in Hy.
    apply not_elem_of_cons. split; [congruence | auto].
Qed.

Lemma existsb_or_split {A} (p q : A -> bool) (l : list A) :
  existsb (fun y => p y || q y) l = false ->
  existsb p l = false /\ existsb q l = false.
Proof.
  induction l as [|y l IH]; simpl; [auto|].
  intros [[Hp Hq]%orb_false_iff Hl]%orb_false_iff.
  destruct (IH Hl) as [-> ->]. now rewrite Hp, Hq.
Qed.

Lemma find_elem {A} (p : A -> bool) (l : list A) (x : A) :
  find p l = Some x -> x ∈ l /\ p x = true.
Proof. intros [Hin Hp]%find_some. split; [now apply list_elem_of_In | exact Hp]. Qed.

Lemma elem_fmap_of {A} (f : A -> string) (l : list A) (x : A) : x ∈ l -> f x ∈ (f <$> l).
Proof. apply list_elem_of_fmap_2. Qed.

Lemma renderPage_db view status fl st : db (snd (renderPage view status fl st)) = db st.
Proof. now destruct fl. Qed.

Lemma get_invite_db token st : db (snd (get_invite token st)) = db st.
Proof.
  unfold get_invite.
  destruct (select_invite_by_token _ _) as [inv|]; [|apply renderPage_db].
  destruct (select_date_night _ _) as [dn|]; [|apply renderPage_db].
  destruct (getTheme _); apply renderPage_db.
Qed.

Section Changes.
Context `{codec : JSON}.

Lemma post_invite_check_accepts token body st s :
  post_invite_check token body st = Accept s ->
  select_invite_by_token (db st) token = Some (sub_inv s) /\
  column_truthy (inv_used_at (sub_inv s)) = false.
Proof.
  unfold post_invite_check.
  destruct (select_invite_by_token (db st) token) as [inv|] eqn:Hinv; [|discriminate].
  destruct (column_truthy (inv_used_at inv)) eqn:Hu; [discriminate|].
  destruct (select_date_night _ _); [|discriminate].
  destruct (getTheme _); [|discriminate].
  destruct (valid_choice _ _ _ _); [|discriminate].
  intros [= <-]. simpl. now split.
Qed.

Lemma post_invite_finish_db env o token s st rec :
  db (snd (post_invite_finish env o token s st rec)) = fst rec.
Proof.
  destruct rec as [d [e|]]; simpl; [reflexivity|]. reflexivity.
Qed.

Lemma post_invite_change whole env o token body st :
  (whole = true -> no_faults o) ->
  Change whole (db st) (db (snd (post_invite env o token body st))).
Proof.
  intros Hw. unfold post_invite.
  destruct (post_invite_check token body st) as [r st'|s] eqn:Hc.
  - simpl. assert (db st' = db st) as ->; [|constructor].
    unfold post_invite_check in Hc.
    destruct (select_invite_by_token _ _) as [inv|]; [|now injection Hc as _ <-].
    destruct (column_truthy _); [now injection Hc as _ <-|].
    destruct (select_date_night _ _); [|now injection Hc as _ <-].
    destruct (getTheme _); [|now injection Hc as _ <-].
    destruct (valid_choice _ _ _ _); [discriminate | now injection Hc as _ <-].
  - rewrite post_invite_finish_db, post_invite_record_cases.
    destruct (post_invite_check_accepts _ _ _ _ Hc) as [Hinv _].
    apply find_elem in Hinv as [Hin _].
    destruct (sql_fault o 0) eqn:F0; [simpl|].
    { destruct whole; [|constructor]. now rewrite (Hw eq_refl 0) in F0. }
    destruct (selection_conflict _ _ _) eqn:Hconf; [constructor|].
    apply existsb_or_split in Hconf as [Hid Hinvid].
    apply existsb_eqb_notin in Hid, Hinvid.
    destruct (sql_fault o 1) eqn:F1; simpl.
    + apply (change_selection whole (db st) (selection_row o s) (now o) false);
        [exact Hid | exact Hinvid | now apply (elem_fmap_of inv_id) |].
      intros ->. now rewrite (Hw eq_refl 1) in F1.
    + now apply (change_selection whole (db st) (selection_row o s) (now o) true);
        [exact Hid | exact Hinvid | apply (elem_fmap_of inv_id) |].
Qed.

Lemma post_admin_new_change whole o body st :
  Change whole (db st) (db (snd (post_admin_new o body st))).
Proof.
  unfold post_admin_new.
  destruct (isAdmin (session st)); simpl; [|constructor].
  destruct (JS.truthy (JS.trim (field body "title"))); simpl; [|constructor].
  destruct (getTheme (JS.trim (field body "themeId"))); [|constructor].
  unfold run, insert_date_night.
  destruct (sql_fault o 0); [constructor|]. simpl.
  match goal with |- context [existsb ?p ?l] => destruct (existsb p l) eqn:E end;
    [constructor|]. simpl.
  apply existsb_eqb_notin in E.
  match goal with |- Change _ _ {| date_nights := _ ++ [?row] |} =>
    exact (change_event whole (db st) row E) end.
Qed.

Lemma post_admin_invite_change whole env o id body st :
  Change whole (db st) (db (snd (post_admin_invite env o id body st))).
Proof.
  unfold post_admin_invite.
  destruct (isAdmin (session st)); simpl; [|constructor].
  destruct (select_date_night (db st) id) as [dn|] eqn:Hdn; [|constructor].
  destruct (getTheme _); [|constructor].
  unfold run, insert_invite.
  destruct (sql_fault o 0); [constructor|]. simpl.
  destruct (invite_conflict _ _ _) eqn:Hc; [constructor|].
  apply existsb_or_split in Hc as [Hid Htok]. apply existsb_eqb_notin in Hid, Htok.
  apply find_elem in Hdn as [Hin Heq]. apply String.eqb_eq in Heq.
  set (row := {| inv_id := nanoid o 0; inv_date_night_id := id; inv_token := nanoid o 1;
                 inv_recipient_email := field_or_null body "recipientEmail";
                 inv_used_at := None; inv_created_at := now o |}).
  assert (Hch : Change whole (db st) (with_invite row (db st))).
  { apply change_invite; [exact Hid | exact Htok | | reflexivity].
    simpl. rewrite <- Heq. now apply (elem_fmap_of dn_id). }
  destruct (field_or_null body "recipientEmail"); [|exact Hch].
  destruct (sendEmail _ _ _ _) as [es [e|]]; exact Hch.
Qed.

Lemma post_admin_resend_db env o inviteId st :
  db (snd (post_admin_resend env o inviteId st)) = db st.
Proof.
  unfold post_admin_resend.
  destruct (isAdmin (session st)); simpl; [|reflexivity].
  destruct (select_invite_by_id (db st) inviteId) as [inv|]; [|reflexivity].
  destruct (inv_recipient_email inv) as [to|]; [|reflexivity].
  destruct (JS.truthy to); simpl; [|reflexivity].
  destruct (select_date_night (db st) (inv_date_night_id inv)) as [dn|]; [|reflexivity].
  destruct (getTheme (dn_theme_id dn)) as [theme|]; [|reflexivity].
  now destruct (sendEmail _ _ _ _) as [es [e|]].
Qed.

Lemma post_admin_menu_change whole o id body st :
  Change whole (db st) (db (snd (post_admin_menu o id body st))).
Proof.
  unfold post_admin_menu.
  destruct (isAdmin (session st)); simpl; [|constructor].
  destruct (select_date_night (db st) id); [|constructor].
  destruct (_ || _); [constructor|].
  unfold run. destruct (sql_fault o 0); [constructor|]. simpl. constructor.
Qed.

End Changes.

Lemma filter_all {A} (l : list A) : List.filter (fun _ => true) l = l.
Proof. induction l as [|x l IH]; simpl; [reflexivity | now rewrite IH]. Qed.

Lemma filter_twice {A} (p q : A -> bool) (l : list A) :
  List.filter q (List.filter p l) = List.filter (fun x => p x && q x) l.
Proof.
  induction l as [|x l IH]; simpl; [reflexivity|].
  destruct (p x); simpl; [|exact IH]. destruct (q x); now rewrite IH.
Qed.

Lemma elem_filter {A} (p : A -> bool) (l : list A) (x : A) :
  x ∈ List.filter p l <-> x ∈ l /\ p x = true.
Proof. rewrite !list_elem_of_In. apply List.filter_In. Qed.

Lemma after_delete_nothing id d : after_delete [] false false id d = d.
Proof. destruct d. unfold after_delete. simpl. now rewrite filter_all. Qed.

Lemma after_delete_next x done id d :
  after_delete done false false id
    {| date_nights := date_nights d; invites := invites d;
       selections := List.filter (fun s => negb (String.eqb (sel_invite_id s) x))
                                 (selections d) |}
  = after_delete (x :: done) false false id d.
Proof.
  unfold after_delete. simpl. f_equal. rewrite filter_twice.
  apply List.filter_ext. intros s. now rewrite negb_orb.
Qed.

(** The loop over the invites: it stops at the first [run] that fails,
    having deleted the selections of the invites before it. *)
Lemma delete_selections_each_spec o id ids : forall k d,
  exists done,
    (forall x, x ∈ done -> x ∈ ids) /\
    fst (delete_selections_each o k ids d) = after_delete done false false id d /\
    (snd (delete_selections_each o k ids d) = None -> done = ids) /\
    (no_faults o -> snd (delete_selections_each o k ids d) = None).
Proof.
  induction ids as [|x ids IH]; intros k d; simpl.
  - exists []. rewrite after_delete_nothing. repeat split. intros y Hy. exact Hy.
  - unfold run. destruct (sql_fault o k) eqn:F.
    + exists []. rewrite after_delete_nothing. simpl.
      split; [intros y Hy; now apply elem_of_nil in Hy|].
      split; [reflexivity|]. split; [discriminate|].
      intros Hf. now rewrite (Hf k) in F.
    + simpl. destruct (IH (S k) {| date_nights := date_nights d; invites := invites d;
                                  selections := List.filter
                                    (fun s => negb (String.eqb (sel_invite_id s) x))
                                    (selections d) |}) as (done & Hsub & Hd & Hall & Hok).
      exists (x :: done). rewrite Hd, after_delete_next.
      split; [|split; [reflexivity|split]].
      * intros y [->|Hy]%elem_of_cons; [apply list_elem_of_here|].
        apply list_elem_of_further. auto.
      * intros He. now rewrite (Hall He).
      * exact Hok.
Qed.

Lemma post_admin_delete_change whole o id st :
  (whole = true -> no_faults o) ->
  Change whole (db st) (db (snd (post_admin_delete o id st))).
Proof.
  intros Hw. unfold post_admin_delete.
  destruct (isAdmin (session st)); simpl; [|constructor].
  destruct (delete_selections_each_spec o id (select_invite_ids (db st) id) 0 (db st))
    as (done & Hsub & Hd & Hall & Hok).
  destruct (delete_selections_each o 0 (select_invite_ids (db st) id) (db st))
    as [d1 [e|]] eqn:Hloop; simpl in *.
  - subst d1. apply change_delete; try discriminate; [exact Hsub|].
    intros ->. specialize (Hok (Hw eq_refl)). discriminate.
  - specialize (Hall eq_refl). subst done d1. unfold run.
    destruct (sql_fault o (length _)) eqn:F1; simpl.
    { apply change_delete; try discriminate; [exact Hsub|].
      intros ->. now rewrite (Hw eq_refl _) in F1. }
    destruct (sql_fault o (S (length _))) eqn:F2; simpl.
    + apply (change_delete whole (db st) _ true false id);
        [exact Hsub | reflexivity | discriminate |].
      intros ->. now rewrite (Hw eq_refl _) in F2.
    + now apply (change_delete whole (db st) _ true true id).
Qed.

Section Serving.
Context `{codec : JSON}.

(** Whatever the request and however it ends, its effect on the store is
    one of [Change]. *)
Lemma handle_change whole env o r st :
  (whole = true -> no_faults o) ->
  Change whole (db st) (db (snd (handle env o r st))).
Proof.
  intros Hw. destruct r; simpl.
  - rewrite get_invite_db. constructor.
  - now apply post_invite_change.
  - unfold post_admin_login.
    destruct (negb _); [constructor|]. destruct (negb _); constructor.
  - constructor.
  - apply post_admin_new_change.
  - apply post_admin_invite_change.
  - rewrite post_admin_resend_db. constructor.
  - apply post_admin_menu_change.
  - now apply post_admin_delete_change.
Qed.

End Serving.

(* ================================================================== *)
(** * What the store keeps across requests *)

Lemma fmap_map_same {A} (f : A -> string) (g : A -> A) (l : list A) :
  (forall x, f (g x) = f x) -> f <$> map g l = f <$> l.
Proof.
  intros Hg. induction l as [|x l IH]; [reflexivity|].
  simpl map. rewrite !fmap_cons. now rewrite Hg, <- IH.
Qed.

Lemma NoDup_fmap_snoc {A} (f : A -> string) (l : list A) (x : A) :
  NoDup (f <$> l) -> f x ∉ (f <$> l) -> NoDup (f <$> (l ++ [x])).
Proof.
  intros Hl Hx. rewrite fmap_app. apply NoDup_app. split; [exact Hl|]. split.
  - intros y Hy Hin. apply list_elem_of_singleton in Hin. now subst.
  - apply NoDup_singleton.
Qed.

Lemma NoDup_fmap_filter {A} (f : A -> string) (p : A -> bool) (l : list A) :
  NoDup (f <$> l) -> NoDup (f <$> List.filter p l).
Proof.
  induction l as [|x l IH]; [auto|].
  rewrite fmap_cons. intros [Hx Hl]%NoDup_cons. simpl List.filter.
  destruct (p x); [|auto].
  rewrite fmap_cons. apply NoDup_cons. split; [|auto].
  intros Hin. apply Hx.
  apply list_elem_of_fmap in Hin as (y & Hy & Hin).
  apply elem_filter in Hin as [Hin _].
  rewrite Hy. now apply list_elem_of_fmap_2.
Qed.

Lemma NoDup_fmap_same_key {A} (f : A -> string) (l : list A) (x y : A) :
  NoDup (f <$> l) -> x ∈ l -> y ∈ l -> f x = f y -> x = y.
Proof.
  induction l as [|z l IH]; intros Hnd Hx Hy Hf.
  - now apply elem_of_nil in Hx.
  - rewrite fmap_cons in Hnd. apply NoDup_cons in Hnd as [Hz Hl].
    apply elem_of_cons in Hx as [->|Hx]; apply elem_of_cons in Hy as [->|Hy].
    + reflexivity.
    + exfalso. apply Hz. rewrite Hf. now apply list_elem_of_fmap_2.
    + exfalso. apply Hz. rewrite <- Hf. now apply list_elem_of_fmap_2.
    + now apply IH.
Qed.

Lemma Forall_map_keyed {A} (P Q : A -> Prop) (g : A -> A) (l : list A) :
  (forall x, x ∈ l -> P x -> Q (g x)) -> Forall P l -> Forall Q (map g l).
Proof.
  intros Hg Hl. induction Hl as [|x l Hx Hl IH]; simpl; constructor.
  - apply Hg; [apply list_elem_of_here | exact Hx].
  - apply IH. intros y Hy. apply Hg. now apply list_elem_of_further.
Qed.

Lemma inv_id_marked now_ id i :
  inv_id (if String.eqb (inv_id i) id then mark_used now_ i else i) = inv_id i.
Proof. now destruct (String.eqb (inv_id i) id). Qed.

Lemma inv_token_marked now_ id i :
  inv_token (if String.eqb (inv_id i) id then mark_used now_ i else i) = inv_token i.
Proof. now destruct (String.eqb (inv_id i) id). Qed.

Lemma inv_event_marked now_ id i :
  inv_date_night_id (if String.eqb (inv_id i) id then mark_used now_ i else i)
  = inv_date_night_id i.
Proof. now destruct (String.eqb (inv_id i) id). Qed.

Lemma dn_id_with_menu menuJson blurb id n :
  dn_id (if String.eqb (dn_id n) id then with_menu menuJson blurb n else n) = dn_id n.
Proof. now destruct (String.eqb (dn_id n) id). Qed.

Lemma select_invite_ids_elem d id x :
  x ∈ select_invite_ids d id <->
  exists i, i ∈ invites d /\ inv_date_night_id i = id /\ inv_id i = x.
Proof.
  unfold select_invite_ids. rewrite list_elem_of_In, in_map_iff. split.
  - intros (i & Hi & Hin). apply List.filter_In in Hin as [Hin He].
    exists i. rewrite list_elem_of_In. apply String.eqb_eq in He. auto.
  - intros (i & Hin & He & Hi). exists i. split; [exact Hi|].
    apply List.filter_In. rewrite <- list_elem_of_In. split; [exact Hin|].
    now apply String.eqb_eq.
Qed.

Lemma existsb_eqb_elem (k : string) (l : list string) :
  existsb (String.eqb k) l = true <-> k ∈ l.
Proof.
  rewrite existsb_exists, list_elem_of_In. split.
  - intros (x & Hin & ->%String.eqb_eq). exact Hin.
  - intros Hin. exists k. split; [exact Hin | apply String.eqb_refl].
Qed.

Lemma change_keeps_keys whole d d' : Change whole d d' -> keys_unique d -> keys_unique d'.
Proof.
  intros Hc (K1 & K2 & K3 & K4 & K5).
  destruct Hc as [|row Hrow|row Hid Htok _ _|row now_ marked Hid Hinv _ _
                 |menuJson blurb id|done b1 b2 id _ _ _ _]; unfold keys_unique; simpl.
  - auto.
  - repeat split; try assumption. now apply NoDup_fmap_snoc.
  - repeat split; try assumption; now apply NoDup_fmap_snoc.
  - destruct marked; simpl;
      rewrite ?(fmap_map_same inv_id), ?(fmap_map_same inv_token)
        by (intros; apply inv_id_marked || apply inv_token_marked);
      repeat split; try assumption; now apply NoDup_fmap_snoc.
  - rewrite (fmap_map_same dn_id) by (intros; apply dn_id_with_menu). auto.
  - repeat split.
    + destruct b2; [now apply NoDup_fmap_filter | exact K1].
    + destruct b1; [now apply NoDup_fmap_filter | exact K2].
    + destruct b1; [now apply NoDup_fmap_filter | exact K3].
    + now apply NoDup_fmap_filter.
    + now apply NoDup_fmap_filter.
Qed.

Lemma change_keeps_refs whole d d' : Change whole d d' -> no_orphans d -> no_orphans d'.
Proof.
  intros Hc [Rs Ri]. rewrite Forall_forall in Rs. rewrite Forall_forall in Ri.
  destruct Hc as [|row Hrow|row Hid Htok Hev _|row now_ marked Hid Hinv Hex _
                 |menuJson blurb id|done b1 b2 id Hsub Hall Hb _];
    unfold no_orphans; rewrite !Forall_forall; simpl.
  - auto.
  - split; [exact Rs|]. intros i Hi. rewrite fmap_app, elem_of_app. left. auto.
  - split.
    + intros s Hs. rewrite fmap_app, elem_of_app. left. auto.
    + intros i [Hi| ->%list_elem_of_singleton]%elem_of_app; auto.
  - assert (Hsel : forall s, s ∈ selections d ++ [row] ->
                             sel_invite_id s ∈ (inv_id <$> invites d)).
    { intros s [Hs| ->%list_elem_of_singleton]%elem_of_app; auto. }
    destruct marked; simpl; rewrite ?Forall_forall; [|now split].
    split.
    + intros s Hs. rewrite (fmap_map_same inv_id) by (intros; apply inv_id_marked). auto.
    + intros i Hi. apply list_elem_of_In, in_map_iff in Hi as (j & <- & Hj).
      rewrite inv_event_marked. apply Ri. now apply list_elem_of_In.
  - split; [exact Rs|]. intros i Hi.
    rewrite (fmap_map_same dn_id) by (intros; apply dn_id_with_menu). auto.
  - split.
    + intros s [Hs Hkeep]%elem_filter.
      destruct b1; [|auto]. specialize (Hall eq_refl). subst done.
      apply negb_true_iff in Hkeep.
      pose proof (Rs s Hs) as Hin.
      apply list_elem_of_fmap in Hin as (i & Hi & Hin).
      rewrite Hi. apply list_elem_of_fmap_2, elem_filter. split; [exact Hin|].
      apply negb_true_iff, String.eqb_neq. intros He.
      assert (Hx : sel_invite_id s ∈ select_invite_ids d id).
      { apply select_invite_ids_elem. exists i. auto. }
      apply existsb_eqb_elem in Hx. congruence.
    + intros i Hi.
      assert (Hin : i ∈ invites d /\ (b1 = true -> inv_date_night_id i <> id)).
      { destruct b1.
        - apply elem_filter in Hi as [Hi Hk]. split; [exact Hi|].
          intros _. now apply String.eqb_neq, negb_true_iff.
        - split; [exact Hi | discriminate]. }
      destruct Hin as [Hin Hne]. pose proof (Ri i Hin) as Hev.
      destruct b2; [|exact Hev]. specialize (Hne (Hb eq_refl)).
      apply list_elem_of_fmap in Hev as (n & Hn & Hnin).
      rewrite Hn. apply list_elem_of_fmap_2, elem_filter. split; [exact Hnin|].
      apply negb_true_iff, String.eqb_neq. congruence.
Qed.

Lemma change_keeps_used d d' :
  Change true d d' -> keys_unique d -> no_orphans d ->
  used_iff_selected d -> used_iff_selected d'.
Proof.
  intros Hc (_ & K2 & _) [Rs _] U. unfold used_iff_selected in *.
  rewrite Forall_forall in Rs. rewrite Forall_forall in U.
  destruct Hc as [|row Hrow|row Hid Htok Hev Hnone|row now_ marked Hid Hinv Hex Hm
                 |menuJson blurb id|done b1 b2 id Hsub Hall Hb Hw];
    rewrite ?Forall_forall; simpl.
  - exact U.
  - exact U.
  - intros i [Hi| ->%list_elem_of_singleton]%elem_of_app; [auto|].
    rewrite Hnone. split; [intros [? [=]]|].
    intros Hin. exfalso. apply Hid.
    apply list_elem_of_fmap in Hin as (s & -> & Hs). auto.
  - rewrite (Hm eq_refl). simpl.
    intros i Hi. apply list_elem_of_In, in_map_iff in Hi as (j & <- & Hj).
    apply list_elem_of_In in Hj. rewrite inv_id_marked, fmap_app, elem_of_app.
    destruct (String.eqb (inv_id j) (sel_invite_id row)) eqn:E.
    + apply String.eqb_eq in E. simpl. split; [intros _|intros _; eauto].
      right. rewrite E. apply list_elem_of_here.
    + apply String.eqb_neq in E. rewrite (U j Hj). split; [auto|].
      intros [H|H%list_elem_of_singleton]; [exact H | congruence].
  - exact U.
  - specialize (Hb (Hw eq_refl)). specialize (Hall Hb). subst b1 done.
    intros i [Hi Hk]%elem_filter. apply negb_true_iff, String.eqb_neq in Hk.
    rewrite (U i Hi). split.
    + intros Hin. apply list_elem_of_fmap in Hin as (s & Hs & Hin).
      rewrite Hs. apply list_elem_of_fmap_2, elem_filter. split; [exact Hin|].
      apply negb_true_iff. destruct (existsb _ _) eqn:E; [|reflexivity].
      exfalso. apply existsb_eqb_elem, select_invite_ids_elem in E as (j & Hj & Hjd & Hji).
      rewrite <- Hs in Hji.
      assert (j = i) by (apply (NoDup_fmap_same_key inv_id (invites d)); auto).
      subst j. congruence.
    + intros Hin. apply list_elem_of_fmap in Hin as (s & Hs & Hin).
      apply elem_filter in Hin as [Hin _]. rewrite Hs. now apply list_elem_of_fmap_2.
Qed.

Section Invariants.
Context `{codec : JSON}.

(** X8. The keys of the schema and the references between the tables
    survive every sequence of requests, whoever sends them and whichever
    [run] fails on the way: no two rows share an id, a token or a
    selection's invite, every selection refers to an invite of the store
    and every invite to an event of the store. *)
Theorem store_keeps_keys_and_references
    (env : gmap string string) (rs : list (Oracle * Session * Request)) (d : Db) :
  keys_unique d -> no_orphans d ->
  keys_unique (serve env rs d) /\ no_orphans (serve env rs d).
Proof.
  revert d. induction rs as [|[[o sess] r] rs IH]; intros d K R; [now split|].
  simpl. apply IH.
  - eapply change_keeps_keys; [|exact K].
    exact (handle_change false env o r {| db := d; session := sess; trace := [] |}
             ltac:(discriminate)).
  - eapply change_keeps_refs; [|exact R].
    exact (handle_change false env o r {| db := d; session := sess; trace := [] |}
             ltac:(discriminate)).
Qed.

(** X9. When no [run] fails, every sequence of requests also keeps each
    invite marked used exactly when a selection refers to it. *)
Theorem fault_free_requests_keep_used_iff_selected
    (env : gmap string string) (rs : list (Oracle * Session * Request)) (d : Db) :
  Forall (fun q => no_faults (fst (fst q))) rs ->
  keys_unique d -> no_orphans d -> used_iff_selected d ->
  used_iff_selected (serve env rs d).
Proof.
  revert d. induction rs as [|[[o sess] r] rs IH]; intros d Hf K R U; [exact U|].
  inversion Hf as [|? ? Ho Hrest]; subst. simpl in Ho.
  pose proof (handle_change true env o r {| db := d; session := sess; trace := [] |}
                (fun _ => Ho)) as Hc.
  simpl. apply IH; [exact Hrest | | |].
  - exact (change_keeps_keys _ _ _ Hc K).
  - exact (change_keeps_refs _ _ _ Hc R).
  - exact (change_keeps_used _ _ Hc K R U).
Qed.

End Invariants.

(** An event is created, an invite issued, a submission recorded while
    the engine fails under its UPDATE, and the deletion of the event
    stopped by a failure after its first statement. *)
Lemma store_keeps_keys_and_references_witness :
  let rs :=
    [(Example.oracle "dn" Example.no_fault Example.delivered, Example.admin,
      POST_admin_new (Example.create_form "Friday" ["Soup"; "Pasta"] ["Board games"]
                        ["Romantic"]));
     (Example.oracle "k" Example.no_fault Example.delivered, Example.admin,
      POST_admin_invite "dn0" (Example.invite_form "pat@example.com"));
     (Example.oracle "sel" (Example.fault_at 1) Example.delivered, Example.guest,
      POST_invite "k1" (Example.choices "Pasta" "Board games" "Romantic"));
     (Example.oracle "x" (Example.fault_at 1) Example.delivered, Example.admin,
      POST_admin_delete "dn0")] in
  keys_unique (serve (codec := ref_codec) Example.env rs Example.db_empty) /\
  no_orphans (serve (codec := ref_codec) Example.env rs Example.db_empty).
Proof.
  cbv zeta. apply store_keeps_keys_and_references.
  - repeat split; constructor.
  - split; constructor.
Defined.

(** The same requests with no failure: event, invite, submission, deletion. *)
Lemma fault_free_requests_keep_used_iff_selected_witness :
  let rs :=
    [(Example.oracle "dn" Example.no_fault Example.delivered, Example.admin,
      POST_admin_new (Example.create_form "Friday" ["Soup"; "Pasta"] ["Board games"]
                        ["Romantic"]));
     (Example.oracle "k" Example.no_fault Example.delivered, Example.admin,
      POST_admin_invite "dn0" (Example.invite_form "pat@example.com"));
     (Example.oracle "sel" Example.no_fault Example.delivered, Example.guest,
      POST_invite "k1" (Example.choices "Pasta" "Board games" "Romantic"))] in
  used_iff_selected (serve (codec := ref_codec) Example.env rs Example.db_empty).
Proof.
  cbv zeta. apply fault_free_requests_keep_used_iff_selected.
  - repeat constructor.
  - repeat split; constructor.
  - split; constructor.
  - constructor.
Defined.

(* ================================================================== *)
(** * The administrator *)

Lemma renderPage_admin view status fl st :
  isAdmin (session (snd (renderPage view status fl st))) = isAdmin (session st).
Proof. now destruct fl. Qed.

Lemma get_invite_admin token st :
  isAdmin (session (snd (get_invite token st))) = isAdmin (session st).
Proof.
  unfold get_invite.
  destruct (select_invite_by_token _ _) as [inv|]; [|apply renderPage_admin].
  destruct (select_date_night _ _) as [dn|]; [|apply renderPage_admin].
  destruct (getTheme _); apply renderPage_admin.
Qed.

Section Admin.
Context `{codec : JSON}.

Lemma post_admin_login_cases env body st :
  let expected := default EmptyString (env !! "ADMIN_PASSWORD") in
  post_admin_login env body st =
    if JS.truthy expected then
      if String.eqb (field body "password") expected then
        (Redirect "/admin/dashboard",
         setFlash {| type := info; message := msg_welcome |} (set_admin st))
      else (Redirect "/admin/login",
            setFlash {| type := error; message := msg_password_wrong |} st)
    else (Redirect "/admin/login",
          setFlash {| type := error; message := msg_password_unset |} st).
Proof.
  cbv zeta. unfold post_admin_login.
  assert (Hor : forall x, JS.or_else x "" = x) by (intros []; reflexivity).
  rewrite Hor.
  destruct (JS.truthy _); [|reflexivity]. now destruct (String.eqb _ _).
Qed.

(** X5. A login turns the session into an administrator's exactly when
    ADMIN_PASSWORD is set to a non-empty text and the submitted password
    is that text, character for character (nothing is trimmed); with
    ADMIN_PASSWORD unset or empty nobody gets in, the empty password
    included. A login that fails leaves the session as it was but for
    its message, and no login touches the store. *)
Theorem login_needs_the_configured_password
    (env : gmap string string) (body : gmap string formval) (st : State) :
  let expected := default EmptyString (env !! "ADMIN_PASSWORD") in
  let granted := expected <> EmptyString /\ field body "password" = expected in
  let r := fst (post_admin_login env body st) in
  let st' := snd (post_admin_login env body st) in
  db st' = db st /\ trace st' = trace st /\
  (granted ->
   r = Redirect "/admin/dashboard" /\ isAdmin (session st') = true /\
   flash (session st') = Some {| type := info; message := msg_welcome |}) /\
  (~ granted ->
   r = Redirect "/admin/login" /\ isAdmin (session st') = isAdmin (session st) /\
   flash (session st')
   = Some {| type := error;
             message := if JS.truthy expected then msg_password_wrong
                        else msg_password_unset |}).
Proof.
  cbv zeta. rewrite post_admin_login_cases.
  destruct (JS.truthy (default "" (env !! "ADMIN_PASSWORD"))) eqn:Ht; simpl.
  - destruct (String.eqb (field body "password") (default "" (env !! "ADMIN_PASSWORD")))
      eqn:He; simpl.
    + split; [reflexivity|]. split; [reflexivity|]. split; [now intros _|].
      intros Hn. exfalso. apply Hn. split; [now apply truthy_nonempty|].
      now apply String.eqb_eq.
    + split; [reflexivity|]. split; [reflexivity|]. split; [|now intros _].
      intros [_ Heq]. apply String.eqb_neq in He. contradiction.
  - split; [reflexivity|]. split; [reflexivity|]. split; [|now intros _].
    intros [Hne _]. apply truthy_nonempty in Hne. congruence.
Qed.

Lemma post_invite_check_reject token body st r st' :
  post_invite_check token body st = Reject r st' ->
  db st' = db st /\ isAdmin (session st') = isAdmin (session st) /\ trace st' = trace st.
Proof.
  unfold post_invite_check. intros Hk.
  destruct (select_invite_by_token _ _) as [inv|]; [|now injection Hk as _ <-].
  destruct (column_truthy _); [now injection Hk as _ <-|].
  destruct (select_date_night _ _); [|now injection Hk as _ <-].
  destruct (getTheme _); [|now injection Hk as _ <-].
  destruct (valid_choice _ _ _ _); [discriminate | now injection Hk as _ <-].
Qed.

Lemma post_invite_tables env o token body st :
  let st' := snd (post_invite env o token body st) in
  date_nights (db st') = date_nights (db st) /\
  (inv_token <$> invites (db st')) = (inv_token <$> invites (db st)) /\
  (inv_id <$> invites (db st')) = (inv_id <$> invites (db st)) /\
  isAdmin (session st') = isAdmin (session st).
Proof.
  cbv zeta. unfold post_invite.
  destruct (post_invite_check token body st) as [r st'|s] eqn:Hk.
  - simpl. destruct (post_invite_check_reject _ _ _ _ _ Hk) as (-> & -> & _). auto.
  - rewrite post_invite_finish_db, post_invite_record_cases.
    split; [|split; [|split]].
    + destruct (sql_fault o 0); [reflexivity|].
      destruct (selection_conflict _ _ _); [reflexivity|].
      destruct (sql_fault o 1); reflexivity.
    + destruct (sql_fault o 0); [reflexivity|].
      destruct (selection_conflict _ _ _); [reflexivity|].
      destruct (sql_fault o 1); [reflexivity|]. simpl.
      apply fmap_map_same. intros; apply inv_token_marked.
    + destruct (sql_fault o 0); [reflexivity|].
      destruct (selection_conflict _ _ _); [reflexivity|].
      destruct (sql_fault o 1); [reflexivity|]. simpl.
      apply fmap_map_same. intros; apply inv_id_marked.
    + now destruct (if sql_fault o 0 then _ else _) as [d [e|]].
Qed.

(** X6. A request whose session is not an administrator's leaves the
    events and the set of invites as they are and, unless it is a
    submission to an invite, the whole store; it ends as an
    administrator's only if it is a login with the configured password.
    After a logout the session is not an administrator's. *)
Theorem only_an_administrator_changes_events_and_invites
    (env : gmap string string) (o : Oracle) (r : Request) (st : State) :
  isAdmin (session st) = false ->
  let st' := snd (handle env o r st) in
  date_nights (db st') = date_nights (db st) /\
  (inv_token <$> invites (db st')) = (inv_token <$> invites (db st)) /\
  (inv_id <$> invites (db st')) = (inv_id <$> invites (db st)) /\
  ((forall token body, r <> POST_invite token body) -> db st' = db st) /\
  (isAdmin (session st') = true ->
   exists body, r = POST_admin_login body /\
                default EmptyString (env !! "ADMIN_PASSWORD") <> EmptyString /\
                field body "password" = default EmptyString (env !! "ADMIN_PASSWORD")) /\
  isAdmin (session (snd (get_admin_logout st'))) = false.
Proof.
  intros Hna. cbv zeta.
  assert (Hsame : forall st1 : State, db st1 = db st -> isAdmin (session st1) = false ->
            date_nights (db st1) = date_nights (db st) /\
            (inv_token <$> invites (db st1)) = (inv_token <$> invites (db st)) /\
            (inv_id <$> invites (db st1)) = (inv_id <$> invites (db st)) /\
            ((forall token body, r <> POST_invite token body) -> db st1 = db st) /\
            (isAdmin (session st1) = true ->
             exists body, r = POST_admin_login body /\
                default EmptyString (env !! "ADMIN_PASSWORD") <> EmptyString /\
                field body "password" = default EmptyString (env !! "ADMIN_PASSWORD")) /\
            isAdmin (session (snd (get_admin_logout st1))) = false).
  { intros st1 Hd Ha. rewrite Hd. repeat (split; [reflexivity || (intros _; reflexivity)|]).
    split; [congruence | reflexivity]. }
  destruct r as [token|token body|body| |body|id body|inviteId|id body|id]; unfold handle.
  - apply Hsame; [apply get_invite_db | now rewrite get_invite_admin].
  - destruct (post_invite_tables env o token body st) as (H1 & H2 & H3 & H4).
    split; [exact H1|]. split; [exact H2|]. split; [exact H3|].
    split; [intros Hn; exfalso; now apply (Hn token body)|].
    split; [congruence | reflexivity].
  - rewrite post_admin_login_cases.
    destruct (JS.truthy (default EmptyString (env !! "ADMIN_PASSWORD"))) eqn:Ht;
      [|now apply Hsame].
    destruct (String.eqb_spec (field body "password")
                (default EmptyString (env !! "ADMIN_PASSWORD"))) as [He|He];
      [|now apply Hsame].
    simpl. repeat (split; [reflexivity || (intros _; reflexivity)|]).
    split; [|reflexivity]. intros _. exists body.
    split; [reflexivity|]. split; [now apply truthy_nonempty | exact He].
  - apply (Hsame (snd (get_admin_logout st))); reflexivity.
  - unfold post_admin_new. rewrite Hna. simpl. now apply Hsame.
  - unfold post_admin_invite. rewrite Hna. simpl. now apply Hsame.
  - unfold post_admin_resend. rewrite Hna. simpl. now apply Hsame.
  - unfold post_admin_menu. rewrite Hna. simpl. now apply Hsame.
  - unfold post_admin_delete. rewrite Hna. simpl. now apply Hsame.
Qed.

End Admin.

(** With ADMIN_PASSWORD set to hunter2, that password opens the session
    and the same with a blank before it does not. *)
Lemma login_needs_the_configured_password_witness :
  let env := <["ADMIN_PASSWORD" := "hunter2"]> Example.env in
  let form (p : string) : gmap string formval := {["password" := FStr p]} in
  let st := Example.at_db Example.db0 Example.guest in
  isAdmin (session (snd (post_admin_login env (form "hunter2") st))) = true /\
  isAdmin (session (snd (post_admin_login env (form " hunter2") st))) = false.
Proof.
  cbv zeta. split.
  - destruct (login_needs_the_configured_password
                (<["ADMIN_PASSWORD" := "hunter2"]> Example.env)
                {["password" := FStr "hunter2"]}
                (Example.at_db Example.db0 Example.guest)) as (_ & _ & Hyes & _).
    apply Hyes. split; [vm_compute; discriminate | vm_compute; reflexivity].
  - destruct (login_needs_the_configured_password
                (<["ADMIN_PASSWORD" := "hunter2"]> Example.env)
                {["password" := FStr " hunter2"]}
                (Example.at_db Example.db0 Example.guest)) as (_ & _ & _ & Hno).
    destruct Hno as (_ & Hsess & _); [|exact Hsess].
    intros [_ Heq]. vm_compute in Heq. discriminate.
Defined.

(** A guest asks for the deletion of the event of [Example.db0]: the
    store is as it was. *)
Lemma only_an_administrator_changes_events_and_invites_witness :
  db (snd (handle (codec := ref_codec) Example.env
             (Example.oracle "x" Example.no_fault Example.delivered)
             (POST_admin_delete "dn1") (Example.at_db Example.db0 Example.guest)))
  = Example.db0.
Proof.
  destruct (only_an_administrator_changes_events_and_invites (codec := ref_codec)
              Example.env (Example.oracle "x" Example.no_fault Example.delivered)
              (POST_admin_delete "dn1") (Example.at_db Example.db0 Example.guest)
              eq_refl) as (_ & _ & _ & Hdb & _).
  apply Hdb. discriminate.
Defined.

(* ================================================================== *)
(** * Deleting an event *)

Lemma find_filter_out {A} (p : A -> bool) (l : list A) :
  find p (List.filter (fun x => negb (p x)) l) = None.
Proof.
  induction l as [|x l IH]; simpl; [reflexivity|].
  destruct (p x) eqn:E; simpl; [exact IH|]. now rewrite E.
Qed.

Lemma post_admin_delete_whole o id st :
  isAdmin (session st) = true -> no_faults o ->
  post_admin_delete o id st
  = (Redirect "/admin/dashboard",
     setFlash {| type := info; message := msg_deleted |}
       (set_db (after_delete (select_invite_ids (db st) id) true true id (db st)) st)).
Proof.
  intros Hadm Hnf. unfold post_admin_delete. rewrite Hadm. simpl.
  destruct (delete_selections_each_spec o id (select_invite_ids (db st) id) 0 (db st))
    as (done & _ & Hd & Hall & Hok).
  specialize (Hok Hnf). specialize (Hall Hok). subst done.
  destruct (delete_selections_each o 0 (select_invite_ids (db st) id) (db st)) as [d1 e].
  simpl in Hd, Hok. subst d1 e. unfold run. now rewrite !Hnf.
Qed.

(** X7. When an administrator deletes an event and no statement fails,
    the event is gone together with every invite issued for it and every
    selection recorded for one of those invites, and the rows of the
    other events, their invites and their selections are all still
    there. *)
Theorem delete_cascades (o : Oracle) (id : string) (st : State) :
  isAdmin (session st) = true -> no_faults o ->
  let r := fst (post_admin_delete o id st) in
  let d' := db (snd (post_admin_delete o id st)) in
  r = Redirect "/admin/dashboard" /\
  select_date_night d' id = None /\
  (forall n, n ∈ date_nights d' <-> n ∈ date_nights (db st) /\ dn_id n <> id) /\
  (forall i, i ∈ invites d' <-> i ∈ invites (db st) /\ inv_date_night_id i <> id) /\
  (forall s, s ∈ selections d' <->
             s ∈ selections (db st) /\
             ~ exists i, i ∈ invites (db st) /\ inv_date_night_id i = id /\
                         inv_id i = sel_invite_id s).
Proof.
  intros Hadm Hnf. cbv zeta. rewrite (post_admin_delete_whole o id st Hadm Hnf). simpl.
  split; [reflexivity|]. split; [apply find_filter_out|].
  split; [|split].
  - intros n. rewrite elem_filter, negb_true_iff, String.eqb_neq. tauto.
  - intros i. rewrite elem_filter, negb_true_iff, String.eqb_neq. tauto.
  - intros s. rewrite elem_filter, negb_true_iff.
    rewrite <- select_invite_ids_elem, <- existsb_eqb_elem.
    destruct (existsb _ _); split; intros [? ?]; split; congruence.
Qed.

(** The event of [Example.db_half] is deleted: the store is empty. *)
Lemma delete_cascades_witness :
  db (snd (post_admin_delete (Example.oracle "x" Example.no_fault Example.delivered) "dn1"
             (Example.at_db Example.db_half Example.admin)))
  = Example.db_empty.
Proof.
  destruct (delete_cascades (Example.oracle "x" Example.no_fault Example.delivered) "dn1"
              (Example.at_db Example.db_half Example.admin) eq_refl
              ltac:(intros k; reflexivity)) as (_ & _ & Hev & Hinv & Hsel).
  destruct (db (snd (post_admin_delete _ "dn1" _))) as [dns invs sels] eqn:E.
  simpl in Hev, Hinv, Hsel. unfold Example.db_empty. f_equal.
  - apply elem_of_nil_inv. intros n Hn. apply Hev in Hn as [Hn Hne].
    vm_compute in Hn. apply list_elem_of_singleton in Hn. subst. now apply Hne.
  - apply elem_of_nil_inv. intros i Hi. apply Hinv in Hi as [Hi Hne].
    vm_compute in Hi. apply list_elem_of_singleton in Hi. subst. now apply Hne.
  - apply elem_of_nil_inv. intros s Hs. apply Hsel in Hs as [Hs Hne].
    vm_compute in Hs. apply list_elem_of_singleton in Hs. subst. apply Hne.
    exists Example.inv1. split; [vm_compute; apply list_elem_of_here | split; reflexivity].
Defined.

(* ================================================================== *)
(** * After a recorded submission *)

Section Afterwards.
Context `{codec : JSON}.

Lemma post_invite_check_redirects token body st r st' :
  post_invite_check token body st = Reject r st' -> r = Redirect (invite_path token).
Proof.
  unfold post_invite_check. intros Hk.
  destruct (select_invite_by_token _ _) as [inv|]; [|now injection Hk as <- _].
  destruct (column_truthy _); [now injection Hk as <- _|].
  destruct (select_date_night _ _); [|now injection Hk as <- _].
  destruct (getTheme _); [|now injection Hk as <- _].
  destruct (valid_choice _ _ _ _); [discriminate | now injection Hk as <- _].
Qed.

(** The thank-you page is the answer of the submissions that were
    recorded, and of those only. *)
Lemma post_invite_thanks env o token body st shown :
  fst (post_invite env o token body st) = Render "thanks" None shown ->
  exists s,
    post_invite_check token body st = Accept s /\
    selection_conflict (nanoid o 0) (inv_id (sub_inv s)) (db st) = false /\
    db (snd (post_invite env o token body st))
    = with_used (now o) (inv_id (sub_inv s)) (with_selection (selection_row o s) (db st)).
Proof.
  unfold post_invite.
  destruct (post_invite_check token body st) as [r st'|s] eqn:Hk.
  - rewrite (post_invite_check_redirects _ _ _ _ _ Hk). discriminate.
  - rewrite post_invite_finish_db. intros Hr. exists s. split; [reflexivity|].
    rewrite post_invite_record_cases in *.
    destruct (sql_fault o 0); [discriminate|].
    destruct (selection_conflict _ _ _); [discriminate|].
    destruct (sql_fault o 1); [discriminate|]. split; reflexivity.
Qed.

Lemma select_invite_by_token_used now_ id d token inv :
  select_invite_by_token d token = Some inv -> inv_id inv = id ->
  select_invite_by_token (with_used now_ id d) token = Some (mark_used now_ inv).
Proof.
  unfold select_invite_by_token, with_used. simpl. intros Hinv Hid.
  rewrite find_map_keyed.
  - rewrite Hinv. simpl. now rewrite Hid, String.eqb_refl.
  - intros x. now rewrite inv_token_marked.
Qed.


Lemma select_selection_new row d :
  sel_invite_id row ∉ (sel_invite_id <$> selections d) ->
  select_selection (with_selection row d) (sel_invite_id row) = Some row.
Proof.
  intros Hnew. unfold select_selection, with_selection. simpl.
  apply find_app_fresh; [|apply String.eqb_refl].
  destruct (existsb _ _) eqn:E; [|reflexivity]. exfalso. apply Hnew.
  apply existsb_exists in E as (x & Hin & Heq%String.eqb_eq).
  rewrite <- Heq. now apply list_elem_of_fmap_2, list_elem_of_In.
Qed.

(** X14. The administrator's list of invites: an entry carries the link
    of the invite's own token; it sums a selection up only for an invite
    that reads as used, so a selection whose invite is still pending
    does not show; and after a submission that was answered with the
    thank-you page the entry of that invite reads as used and shows the
    three choices as they were recorded. *)
Theorem invite_list_shows_what_was_recorded
    (env : gmap string string) (o : Oracle) (token : string)
    (body : gmap string formval) (st : State) (shown : option Flash) (menu : Menu) :
  (forall d inv,
      vm_url (inviteVM env d menu inv) = baseUrl env +:+ invite_path (inv_token inv) /\
      (column_truthy (inv_used_at inv) = false ->
       vm_used (inviteVM env d menu inv) = false /\
       vm_selectionSummary (inviteVM env d menu inv) = None)) /\
  (fst (post_invite env o token body st) = Render "thanks" None shown ->
   now o <> EmptyString ->
   let d' := db (snd (post_invite env o token body st)) in
   exists inv,
     select_invite_by_token d' token = Some inv /\
     vm_used (inviteVM env d' menu inv) = true /\
     vm_selectionSummary (inviteVM env d' menu inv)
     = Some (selection_summary (JS.trim (field body "dinnerChoice"))
               (JS.trim (field body "activityChoice"))
               (JS.trim (field body "moodChoice")))).
Proof.
  split.
  - intros d inv. split; [reflexivity|]. intros Hu. unfold inviteVM. simpl.
    now rewrite Hu.
  - intros Hr Hnow. cbv zeta.
    destruct (post_invite_thanks _ _ _ _ _ _ Hr) as (s & Hk & Hconf & Hdb).
    destruct (post_invite_check_accepts _ _ _ _ Hk) as [Hinv _].
    rewrite Hdb. exists (mark_used (now o) (sub_inv s)).
    split; [now apply select_invite_by_token_used|].
    apply truthy_nonempty in Hnow. unfold inviteVM. simpl. rewrite Hnow.
    split; [reflexivity|].
    apply existsb_or_split in Hconf as [_ Hconf]. apply existsb_eqb_notin in Hconf.
    change (select_selection _ _)
      with (select_selection (with_selection (selection_row o s) (db st))
              (sel_invite_id (selection_row o s))).
    rewrite (select_selection_new (selection_row o s) (db st) Hconf). simpl.
    unfold post_invite_check in Hk.
    destruct (select_invite_by_token (db st) token); [|discriminate].
    destruct (column_truthy _); [discriminate|].
    destruct (select_date_night _ _); [|discriminate].
    destruct (getTheme _); [|discriminate].
    destruct (valid_choice _ _ _ _); [|discriminate].
    now injection Hk as <-.
Qed.

End Afterwards.


(** Pasta, Board games and Romantic are recorded with blanks around
    them: the list shows them bare. *)
Lemma invite_list_shows_what_was_recorded_witness :
  let o := Example.oracle "sel" Example.no_fault Example.delivered in
  let body := Example.choices " Pasta " "Board games" "Romantic" in
  let d' := db (snd (post_invite (codec := ref_codec) Example.env o "T" body
                       (Example.at_db Example.db0 Example.guest))) in
  exists inv,
    select_invite_by_token d' "T" = Some inv /\
    vm_selectionSummary
      (inviteVM Example.env d' {| dinner := []; activity := []; mood := [] |} inv)
    = Some (selection_summary "Pasta" "Board games" "Romantic").
Proof.
  cbv zeta.
  destruct (invite_list_shows_what_was_recorded (codec := ref_codec) Example.env
              (Example.oracle "sel" Example.no_fault Example.delivered) "T"
              (Example.choices " Pasta " "Board games" "Romantic")
              (Example.at_db Example.db0 Example.guest) None
              {| dinner := []; activity := []; mood := [] |}) as [_ Hrec].
  destruct Hrec as (inv & Hinv & _ & Hsum);
    [vm_compute; reflexivity | vm_compute; discriminate |].
  exists inv. split; [exact Hinv | exact Hsum].
Defined.

(* ================================================================== *)
(** * Messages, issue and creation *)

Lemma find_app_other {A} (p : A -> bool) (l : list A) (x : A) :
  p x = false -> find p (l ++ [x]) = find p l.
Proof.
  intros Hx. induction l as [|y l IH]; simpl; [now rewrite Hx|].
  destruct (p y); [reflexivity | exact IH].
Qed.

Lemma find_none_existsb {A} (p : A -> bool) (l : list A) :
  find p l = None -> existsb p l = false.
Proof.
  induction l as [|y l IH]; simpl; [reflexivity|].
  destruct (p y); [discriminate | exact IH].
Qed.

Section Messages.
Context `{codec : JSON}.


(** X16. An event whose stored menu decodes with an empty group, as it
    does when the text is not a menu at all, cannot be answered: every
    submission to one of its pending invites is refused as invalid,
    whatever it holds. *)
Theorem empty_group_refuses_every_submission
    (env : gmap string string) (o : Oracle) (token : string)
    (body : gmap string formval) (st : State)
    (inv : Invite) (dn : DateNight) (theme : Theme) :
  select_invite_by_token (db st) token = Some inv ->
  column_truthy (inv_used_at inv) = false ->
  select_date_night (db st) (inv_date_night_id inv) = Some dn ->
  getTheme (dn_theme_id dn) = Some theme ->
  let menu := safeParseMenuJson (dn_menu_json dn) in
  dinner menu = [] \/ activity menu = [] \/ mood menu = [] ->
  post_invite env o token body st
  = (Redirect (invite_path token),
     setFlash {| type := error; message := msg_choices_invalid |} st).
Proof.
  intros Hinv Hu Hdn Hth menu Hempty. unfold post_invite.
  rewrite (post_invite_check_resolved token body st inv dn theme Hinv Hu Hdn Hth).
  fold menu. unfold valid_choice.
  destruct Hempty as [->|[->| ->]]; simpl; rewrite ?andb_false_r; reflexivity.
Qed.

(** X13. Creating an event. A blank title is refused with its message
    and an unknown theme with its own, the title being looked at first,
    and the store is left alone. Otherwise, the INSERT going through,
    the event is stored under the identifier drawn, with the trimmed
    title, the theme's blurb and, as its menu, the menu submitted with
    the form or else the options of the theme; the other events, the
    invites, the selections and the session are as they were. *)
Theorem created_event_is_stored
    (o : Oracle) (body : gmap string formval) (st : State) :
  isAdmin (session st) = true ->
  let title := JS.trim (field body "title") in
  let themeId := JS.trim (field body "themeId") in
  let r := fst (post_admin_new o body st) in
  let st' := snd (post_admin_new o body st) in
  (title = EmptyString ->
   r = Redirect "/admin/new" /\
   st' = setFlash {| type := error; message := msg_title_missing |} st) /\
  (title <> EmptyString -> getTheme themeId = None ->
   r = Redirect "/admin/new" /\
   st' = setFlash {| type := error; message := msg_theme_missing |} st) /\
  (forall theme,
      title <> EmptyString -> getTheme themeId = Some theme ->
      sql_fault o 0 = false -> select_date_night (db st) (nanoid o 0) = None ->
      r = Redirect ("/admin/date-night/" +:+ nanoid o 0) /\
      session st' = session st /\
      invites (db st') = invites (db st) /\ selections (db st') = selections (db st) /\
      (forall id', id' <> nanoid o 0 ->
                   select_date_night (db st') id' = select_date_night (db st) id') /\
      exists row,
        select_date_night (db st') (nanoid o 0) = Some row /\
        dn_title row = title /\ dn_theme_id row = themeId /\
        dn_blurb row = Some (theme_blurb theme) /\
        dn_date_iso row = field_or_null body "date" /\
        (body !! "menu" = None ->
         dn_menu_json row
         = JSON_stringify (menu_value (options_dinner theme) (options_activity theme)
                             (options_mood theme))) /\
        (forall v, body !! "menu" = Some v -> formval_truthy v = true ->
                   dn_menu_json row = JSON_stringify (json_of_formval v))).
Proof.
  intros Hadm. cbv zeta. unfold post_admin_new. rewrite Hadm. simpl.
  split; [|split].
  - intros ->. split; reflexivity.
  - intros Ht%truthy_nonempty Hth. rewrite Ht, Hth. split; reflexivity.
  - intros theme Ht%truthy_nonempty Hth F0 Hnew. rewrite Ht, Hth. simpl.
    unfold run, insert_date_night. rewrite F0. simpl.
    unfold select_date_night in Hnew. rewrite (find_none_existsb _ _ Hnew). simpl.
    split; [reflexivity|]. split; [reflexivity|]. split; [reflexivity|].
    split; [reflexivity|]. split.
    + intros id' Hne. unfold select_date_night. simpl. apply find_app_other.
      simpl. apply String.eqb_neq. congruence.
    + eexists. split.
      * unfold select_date_night. simpl.
        apply find_app_fresh; [now apply find_none_existsb | apply String.eqb_refl].
      * simpl. repeat split.
        -- intros ->. reflexivity.
        -- intros v -> ->. reflexivity.
Qed.

End Messages.

(** X12. Issuing an invite for an event that exists, the INSERT going
    through: the invite is stored pending under the token drawn, that
    token resolves to it and opens the invite page, and every other
    token resolves as before. This holds whatever [fetch] answers: a
    failed email is reported in the message and the invite stays. *)
Theorem issued_invite_is_pending_and_resolves
    (env : gmap string string) (o : Oracle) (id : string)
    (body : gmap string formval) (st : State) (dn : DateNight) (theme : Theme)
    (sess : Session) (tr : list Effect) :
  isAdmin (session st) = true ->
  select_date_night (db st) id = Some dn ->
  getTheme (dn_theme_id dn) = Some theme ->
  sql_fault o 0 = false ->
  invite_conflict (nanoid o 0) (nanoid o 1) (db st) = false ->
  let r := fst (post_admin_invite env o id body st) in
  let st' := snd (post_admin_invite env o id body st) in
  let row := {| inv_id := nanoid o 0; inv_date_night_id := id; inv_token := nanoid o 1;
                inv_recipient_email := field_or_null body "recipientEmail";
                inv_used_at := None; inv_created_at := now o |} in
  let sent (to : string) :=
    sendEmail env (fetch o 0) to
      (renderInviteEmail (dn_title dn) (theme_name theme) (theme_blurb theme)
         (baseUrl env +:+ invite_path (nanoid o 1))) in
  r = Redirect ("/admin/date-night/" +:+ id) /\
  db st' = with_invite row (db st) /\
  select_invite_by_token (db st') (nanoid o 1) = Some row /\
  (forall t, t <> nanoid o 1 ->
             select_invite_by_token (db st') t = select_invite_by_token (db st) t) /\
  fst (get_invite (nanoid o 1) {| db := db st'; session := sess; trace := tr |})
  = Render "invite" None (flash sess) /\
  (field_or_null body "recipientEmail" = None ->
   trace st' = trace st /\
   flash (session st') = Some {| type := info; message := msg_invite_created |}) /\
  (forall to, field_or_null body "recipientEmail" = Some to ->
              trace st' = trace st ++ fst (sent to) /\
              flash (session st')
              = Some match snd (sent to) with
                     | None => {| type := info; message := msg_invite_emailed |}
                     | Some e => {| type := error; message := msg_invite_email_failed e |}
                     end).
Proof.
  intros Hadm Hdn Hth F0 Hc. cbv zeta.
  set (row := {| inv_id := nanoid o 0; inv_date_night_id := id; inv_token := nanoid o 1;
                 inv_recipient_email := field_or_null body "recipientEmail";
                 inv_used_at := None; inv_created_at := now o |}).
  assert (Hrun : post_admin_invite env o id body st
                 = (Redirect ("/admin/date-night/" +:+ id),
                    match field_or_null body "recipientEmail" with
                    | Some to =>
                        let sent :=
                          sendEmail env (fetch o 0) to
                            (renderInviteEmail (dn_title dn) (theme_name theme)
                               (theme_blurb theme)
                               (baseUrl env +:+ invite_path (nanoid o 1))) in
                        setFlash match snd sent with
                                 | None => {| type := info; message := msg_invite_emailed |}
                                 | Some e =>
                                     {| type := error;
                                        message := msg_invite_email_failed e |}
                                 end
                                 (emit (fst sent) (set_db (with_invite row (db st)) st))
                    | None =>
                        setFlash {| type := info; message := msg_invite_created |}
                                 (set_db (with_invite row (db st)) st)
                    end)).
  { unfold post_admin_invite. rewrite Hadm, Hdn, Hth. simpl.
    unfold run, insert_invite. rewrite F0. simpl. rewrite Hc. fold row.
    destruct (field_or_null body "recipientEmail") as [to|]; [|reflexivity].
    now destruct (sendEmail _ _ _ _) as [es [e|]]. }
  rewrite Hrun. simpl.
  assert (Hdb : db match field_or_null body "recipientEmail" with
                   | Some to =>
                       setFlash
                         match snd (sendEmail env (fetch o 0) to
                                      (renderInviteEmail (dn_title dn) (theme_name theme)
                                         (theme_blurb theme)
                                         (baseUrl env +:+ invite_path (nanoid o 1)))) with
                         | None => {| type := info; message := msg_invite_emailed |}
                         | Some e =>
                             {| type := error; message := msg_invite_email_failed e |}
                         end
                         (emit (fst (sendEmail env (fetch o 0) to
                                       (renderInviteEmail (dn_title dn) (theme_name theme)
                                          (theme_blurb theme)
                                          (baseUrl env +:+ invite_path (nanoid o 1)))))
                               (set_db (with_invite row (db st)) st))
                   | None =>
                       setFlash {| type := info; message := msg_invite_created |}
                                (set_db (with_invite row (db st)) st)
                   end = with_invite row (db st)).
  { now destruct (field_or_null body "recipientEmail"). }
  rewrite Hdb.
  apply existsb_or_split in Hc as [_ Htok].
  assert (Hres : select_invite_by_token (with_invite row (db st)) (nanoid o 1) = Some row).
  { unfold select_invite_by_token. simpl.
    apply find_app_fresh; [exact Htok | apply String.eqb_refl]. }
  split; [reflexivity|]. split; [reflexivity|]. split; [exact Hres|]. split.
  { intros t Hne. unfold select_invite_by_token. simpl. apply find_app_other.
    simpl. apply String.eqb_neq. congruence. }
  split.
  { unfold get_invite. simpl. rewrite Hres. simpl.
    unfold select_date_night in *. simpl. rewrite Hdn, Hth. reflexivity. }
  split.
  - intros ->. split; reflexivity.
  - intros to ->. split; reflexivity.
Qed.

(** An invite is issued for the event of [Example.db_fresh] while the
    email service is unreachable: the token resolves to the pending
    invite and the message reports the failed email. *)
Lemma issued_invite_is_pending_and_resolves_witness :
  let st' :=
    snd (post_admin_invite Example.env
           (Example.oracle "k" Example.no_fault Example.unreachable) "dn1"
           (Example.invite_form "pat@example.com")
           (Example.at_db Example.db_fresh Example.admin)) in
  select_invite_by_token (db st') "k1" = Some (Example.issued "dn1") /\
  flash (session st')
  = Some {| type := error;
            message := msg_invite_email_failed (FetchFailed "ECONNREFUSED") |}.
Proof.
  cbv zeta.
  destruct (issued_invite_is_pending_and_resolves Example.env
              (Example.oracle "k" Example.no_fault Example.unreachable) "dn1"
              (Example.invite_form "pat@example.com")
              (Example.at_db Example.db_fresh Example.admin)
              (Example.friday (Example.friday_menu ["Soup"; "Pasta"])) cottagecore_classic
              Example.guest []
              eq_refl eq_refl eq_refl eq_refl ltac:(vm_compute; reflexivity))
    as (_ & _ & Hres & _ & _ & _ & Hmail).
  split.
  - vm_compute in Hres. vm_compute. exact Hres.
  - destruct (Hmail "pat@example.com" ltac:(vm_compute; reflexivity)) as [_ Hflash].
    vm_compute in Hflash. vm_compute. exact Hflash.
Defined.

(** The form of [Example.create_form] on the empty store: the event is
    stored under dn0 with its title. *)
Lemma created_event_is_stored_witness :
  exists row,
    select_date_night
      (db (snd (post_admin_new (codec := ref_codec)
                  (Example.oracle "dn" Example.no_fault Example.delivered)
                  (Example.create_form " Friday " ["Soup"; "Pasta"] ["Board games"]
                     ["Romantic"])
                  (Example.at_db Example.db_empty Example.admin)))) "dn0" = Some row /\
    dn_title row = "Friday".
Proof.
  destruct (created_event_is_stored (codec := ref_codec)
              (Example.oracle "dn" Example.no_fault Example.delivered)
              (Example.create_form " Friday " ["Soup"; "Pasta"] ["Board games"] ["Romantic"])
              (Example.at_db Example.db_empty Example.admin) eq_refl)
    as (_ & _ & Hstored).
  destruct (Hstored cottagecore_classic) as (_ & _ & _ & _ & _ & row & Hrow & Htitle & _);
    [vm_compute; discriminate | vm_compute; reflexivity | reflexivity | reflexivity |].
  exists row. split; [exact Hrow|]. rewrite Htitle. vm_compute. reflexivity.
Defined.

(** The menu text of the event is not JSON: Pasta, which the theme
    offers, is refused like everything else. *)
Lemma empty_group_refuses_every_submission_witness :
  let st := Example.at_db {| date_nights := [Example.friday "not a menu"];
                             invites := [Example.inv1]; selections := [] |}
              Example.guest in
  post_invite (codec := ref_codec) Example.env
    (Example.oracle "sel" Example.no_fault Example.delivered) "T"
    (Example.choices "Pasta night" "Board games" "Romantic") st
  = (Redirect "/invite/T",
     setFlash {| type := error; message := msg_choices_invalid |} st).
Proof.
  cbv zeta.
  apply (empty_group_refuses_every_submission (codec := ref_codec) Example.env
           (Example.oracle "sel" Example.no_fault Example.delivered) "T"
           (Example.choices "Pasta night" "Board games" "Romantic")
           (Example.at_db {| date_nights := [Example.friday "not a menu"];
                             invites := [Example.inv1]; selections := [] |}
              Example.guest)
           Example.inv1 (Example.friday "not a menu") cottagecore_classic
           eq_refl eq_refl eq_refl eq_refl).
  left. vm_compute. reflexivity.
Defined.


(* ================================================================== *)
(** * Without an API key *)

Lemma sendEmail_stub env net to mail :
  JS.trim (default EmptyString (env !! "RESEND_API_KEY")) = EmptyString ->
  forallb is_notice (fst (sendEmail env net to mail)) = true /\
  snd (sendEmail env net to mail) = None.
Proof.
  intros Hkey. unfold sendEmail.
  assert (Hk : JS.truthy (default "" (JS.trim <$> env !! "RESEND_API_KEY")) = false).
  { destruct (env !! "RESEND_API_KEY") as [k|]; simpl in *; [now rewrite Hkey | reflexivity]. }
  rewrite Hk. split; reflexivity.
Qed.

Lemma renderPage_trace view status fl st :
  trace (snd (renderPage view status fl st)) = trace st.
Proof. now destruct fl. Qed.

Lemma get_invite_trace token st : trace (snd (get_invite token st)) = trace st.
Proof.
  unfold get_invite.
  destruct (select_invite_by_token _ _) as [inv|]; [|apply renderPage_trace].
  destruct (select_date_night _ _) as [dn|]; [|apply renderPage_trace].
  destruct (getTheme _); apply renderPage_trace.
Qed.

Section NoKey.
Context `{codec : JSON}.

(** X15. Without RESEND_API_KEY, or with a blank one, no request calls
    the email service and none logs an email failure: all a request adds
    to the trace are the stubs of the emails it would have sent and the
    notice of a missing planner address. *)
Theorem without_an_api_key_nothing_is_sent
    (env : gmap string string) (o : Oracle) (r : Request) (st : State) :
  JS.trim (default EmptyString (env !! "RESEND_API_KEY")) = EmptyString ->
  exists es,
    trace (snd (handle env o r st)) = trace st ++ es /\
    forallb is_notice es = true.
Proof.
  intros Hkey.
  assert (Hnone : forall st1 : State, trace st1 = trace st ->
                    exists es, trace st1 = trace st ++ es /\ forallb is_notice es = true).
  { intros st1 ->. exists []. now rewrite app_nil_r. }
  assert (Hsend : forall net to mail,
             forallb is_notice (fst (sendEmail env net to mail)) = true /\
             snd (sendEmail env net to mail) = None)
    by (intros; now apply sendEmail_stub).
  destruct r as [token|token body|body| |body|id body|inviteId|id body|id]; unfold handle.
  - apply Hnone, get_invite_trace.
  - unfold post_invite.
    destruct (post_invite_check token body st) as [r' st'|s] eqn:Hk.
    + apply Hnone. exact (proj2 (proj2 (post_invite_check_reject _ _ _ _ _ Hk))).
    + destruct (post_invite_record o s (db st)) as [d [e|]]; [now apply Hnone|].
      unfold post_invite_finish. rewrite renderPage_trace. simpl.
      exists (notify_planner env o token s ++ notify_partner env o s).
      split; [now rewrite app_assoc|].
      rewrite forallb_app. apply andb_true_iff. split.
      * unfold notify_planner. destruct (JS.truthy (plannerEmail env)); [|reflexivity].
        destruct (Hsend (fetch o 0) (plannerEmail env)
                    (renderPlannerEmail (dn_title (sub_dn s)) (theme_name (sub_theme s))
                       (baseUrl env +:+ invite_path token) (sub_dinner s)
                       (sub_activity s) (sub_mood s) (sub_notes s))) as [Hq Hn].
        destruct (sendEmail _ _ _ _) as [es thrown]. simpl in *. now subst thrown.
      * unfold notify_partner.
        destruct (inv_recipient_email (sub_inv s)) as [to|]; [|reflexivity].
        destruct (JS.truthy to); [|reflexivity].
        destruct (Hsend (fetch o 1) to
                    (renderPartnerConfirmationEmail (dn_title (sub_dn s))
                       (theme_name (sub_theme s)))) as [Hq Hn].
        destruct (sendEmail _ _ _ _) as [es thrown]. simpl in *. now subst thrown.
  - apply Hnone. rewrite post_admin_login_cases.
    destruct (JS.truthy _); [|reflexivity]. now destruct (String.eqb _ _).
  - now apply Hnone.
  - apply Hnone. unfold post_admin_new.
    destruct (isAdmin (session st)); simpl; [|reflexivity].
    destruct (JS.truthy _); simpl; [|reflexivity].
    destruct (getTheme _); [|reflexivity].
    now destruct (run _ _ _).
  - unfold post_admin_invite.
    destruct (isAdmin (session st)); simpl; [|now apply Hnone].
    destruct (select_date_night (db st) id) as [dn|]; [|now apply Hnone].
    destruct (getTheme _) as [theme|]; [|now apply Hnone].
    destruct (run _ _ _) as [d|e]; [|now apply Hnone].
    destruct (field_or_null body "recipientEmail") as [to|]; [|now apply Hnone].
    destruct (Hsend (fetch o 0) to
                (renderInviteEmail (dn_title dn) (theme_name theme) (theme_blurb theme)
                   (baseUrl env +:+ invite_path (nanoid o 1)))) as [Hq Hn].
    destruct (sendEmail _ _ _ _) as [es thrown]. simpl in *. subst thrown. simpl.
    exists es. now split.
  - unfold post_admin_resend.
    destruct (isAdmin (session st)); simpl; [|now apply Hnone].
    destruct (select_invite_by_id (db st) inviteId) as [inv|]; [|now apply Hnone].
    destruct (inv_recipient_email inv) as [to|]; [|now apply Hnone].
    destruct (JS.truthy to); simpl; [|now apply Hnone].
    destruct (select_date_night (db st) (inv_date_night_id inv)) as [dn|];
      [|now apply Hnone].
    destruct (getTheme (dn_theme_id dn)) as [theme|]; [|now apply Hnone].
    destruct (Hsend (fetch o 0) to
                (renderInviteEmail (dn_title dn) (theme_name theme) (theme_blurb theme)
                   (baseUrl env +:+ invite_path (inv_token inv)))) as [Hq Hn].
    destruct (sendEmail _ _ _ _) as [es thrown]. simpl in *. subst thrown. simpl.
    exists es. now split.
  - apply Hnone. unfold post_admin_menu.
    destruct (isAdmin (session st)); simpl; [|reflexivity].
    destruct (select_date_night (db st) id); [|reflexivity].
    destruct (_ || _); [reflexivity|]. now destruct (run _ _ _).
  - apply Hnone. unfold post_admin_delete.
    destruct (isAdmin (session st)); simpl; [|reflexivity].
    destruct (delete_selections_each _ _ _ _) as [d1 [e|]]; [reflexivity|].
    destruct (run _ _ d1); [|reflexivity]. now destruct (run _ _ _).
Qed.

End NoKey.

(** The deployment of the examples with its API key removed: a recorded
    submission leaves two stubs in the trace and calls nothing. *)
Lemma without_an_api_key_nothing_is_sent_witness :
  exists es,
    trace (snd (handle (codec := ref_codec) (delete "RESEND_API_KEY" Example.env)
                  (Example.oracle "sel" Example.no_fault Example.unreachable)
                  (POST_invite "T" (Example.choices "Pasta" "Board games" "Romantic"))
                  (Example.at_db Example.db0 Example.guest)))
    = [] ++ es /\ forallb is_notice es = true.
Proof.
  exact (without_an_api_key_nothing_is_sent (codec := ref_codec)
           (delete "RESEND_API_KEY" Example.env)
           (Example.oracle "sel" Example.no_fault Example.unreachable)
           (POST_invite "T" (Example.choices "Pasta" "Board games" "Romantic"))
           (Example.at_db Example.db0 Example.guest) eq_refl).
Defined.

(* ================================================================== *)
(** * A deletion that fails *)

(** X17. The event row is the last thing a deletion removes: the request
    either ends with the redirect to the dashboard, the event gone, or
    ends with the storage error of the statement that failed, and then
    the events of the store are all as they were, so the deletion can be
    asked for again. *)
Theorem failed_deletion_keeps_the_event (o : Oracle) (id : string) (st : State) :
  isAdmin (session st) = true ->
  let r := fst (post_admin_delete o id st) in
  let d' := db (snd (post_admin_delete o id st)) in
  (r = Redirect "/admin/dashboard" /\ select_date_night d' id = None) \/
  (exists e, r = Unhandled (SqliteError_ e) /\ date_nights d' = date_nights (db st)).
Proof.
  intros Hadm. cbv zeta. unfold post_admin_delete. rewrite Hadm. simpl.
  destruct (delete_selections_each_spec o id (select_invite_ids (db st) id) 0 (db st))
    as (done & _ & Hd & _ & _).
  destruct (delete_selections_each o 0 (select_invite_ids (db st) id) (db st))
    as [d1 [e|]]; simpl in Hd; subst d1.
  - right. exists e. split; reflexivity.
  - unfold run. destruct (sql_fault o (length _)).
    { right. exists SQLITE_IOERR. split; reflexivity. }
    simpl. destruct (sql_fault o (S (length _))).
    + right. exists SQLITE_IOERR. split; reflexivity.
    + left. simpl. split; [reflexivity | apply find_filter_out].
Qed.

(** The deletion of the event of [Example.db_half] fails at its second
    statement: the selection is gone, the event and its invite are there. *)
Lemma failed_deletion_keeps_the_event_witness :
  let run := post_admin_delete (Example.oracle "x" (Example.fault_at 1) Example.delivered)
               "dn1" (Example.at_db Example.db_half Example.admin) in
  fst run = Unhandled (SqliteError_ SQLITE_IOERR) /\
  date_nights (db (snd run)) = date_nights Example.db_half.
Proof.
  cbv zeta.
  destruct (failed_deletion_keeps_the_event
              (Example.oracle "x" (Example.fault_at 1) Example.delivered) "dn1"
              (Example.at_db Example.db_half Example.admin) eq_refl)
    as [[Hr _]|(e & Hr & Hd)].
  - vm_compute in Hr. discriminate.
  - split; [|exact Hd]. rewrite Hr. f_equal. f_equal.
    vm_compute in Hr. now injection Hr as <-.
Defined.
